(** * The APNs client of [src/apns.ts]: token cache, request building,
      response classification and error events.

    The client is embedded shallowly.  The object state ([this]), the
    readings of the wall clock and the calls that leave the client (to the
    signer, to [fetch], to the event listeners) are threaded through a small
    state-and-exception monad [M]; every method of [ApnsClient] is a
    function in [M] that follows the TypeScript statement by statement.

    Numbers.  [Date.now()], token timestamps, HTTP status codes and
    priorities are integers far inside the range where binary64 arithmetic
    is exact, and are [Z] here.  [options.expiration] is an arbitrary
    JavaScript number and is a binary64 [float], so that [toFixed(0)] and the
    division by 1000 are the IEEE operations the program runs. *)

From Stdlib Require Import ZArith Lia Floats Uint63.
From stdpp Require Import base strings gmap list pretty.

Open Scope Z_scope.

(** ** Constants of the module *)

(* APNS version *)
Definition API_VERSION : Z := 3.

(* Signing algorithm for JSON web token *)
Definition SIGNING_ALGORITHM : string := "ES256".

(* Reset our signing token every 55 minutes *)
Definition RESET_TOKEN_INTERVAL_MS : Z := 55 * 60 * 1000.

Module Host.
Definition production : string := "api.push.apple.com".
Definition development : string := "api.sandbox.push.apple.com".
End Host.

(** ** Data *)

Record SigningToken := {
  value : string;
  timestamp : Z
}.

(** [signingKey: string | Buffer | PrivateKey]: key material that the client
    only hands on to the signer. *)
Definition KeyMaterial := string.

Record ApnsOptions := {
  opt_team : string;
  opt_signingKey : KeyMaterial;
  opt_keyId : string;
  opt_defaultTopic : option string;
  opt_host : option string;
  opt_requestTimeout : option Z;
  opt_keepAlive : option bool
}.

(** A [Date] holds a time value in milliseconds, or is invalid. *)
Inductive Date :=
  | Date_of_ms (ms : Z)
  | Invalid_Date.

(** [options.expiration?: number | Date] *)
Inductive Expiration :=
  | Expiration_number (n : float)
  | Expiration_Date (d : Date).

Record NotificationOptions := {
  topic : option string;
  expiration : option Expiration;
  collapseId : option string
}.

(** The notification, as far as the client reads it.  [priority] is a member
    of the numeric enum [Priority]; [apnsOptionsJson] is
    [JSON.stringify(notification.buildApnsOptions())]. *)
Record Notification := {
  deviceToken : string;
  pushType : string;
  priority : Z;
  options : NotificationOptions;
  apnsOptionsJson : string
}.

(** Modelled from the spec: the type [ApnsResponseError] of errors.js, the
    JSON body [{ reason: string, timestamp?: number }] of a rejected push. *)
Record ApnsResponseError := {
  reason : string;
  body_timestamp : option Z
}.

(** The properties [new ApnsError({ statusCode, notification, response })]
    is built from. *)
Record ApnsError := {
  statusCode : Z;
  notification : Notification;
  response : ApnsResponseError
}.

(** Modelled from the spec: the accessors of the class [ApnsError] of
    errors.js, a DeliveryError [{ statusCode, notification, reason,
    timestamp }] whose reason and timestamp are those of the response body.
    The class is an [Error]: it is thrown and caught as one. *)
Definition ApnsError_reason (e : ApnsError) : string := reason (response e).
Definition ApnsError_timestamp (e : ApnsError) : option Z :=
  body_timestamp (response e).

(** What a [throw] (or a rejected promise) carries: the client's own
    [ApnsError], or an error of a collaborator (the signer, the transport). *)
Inductive Thrown :=
  | Thrown_ApnsError (e : ApnsError)
  | Thrown_Error (message : string).

Inductive Completion (A : Type) :=
  | Normal (a : A)
  | Throw (t : Thrown).
Arguments Normal {A} a.
Arguments Throw {A} t.

(** Arguments of the signer of fast-jwt. *)
Record SignerOptions := {
  key : KeyMaterial;
  algorithm : string;
  kid : string
}.

Record Claims := {
  iss : string;
  iat : Z
}.

(** ** The request *)

Record RequestInit := {
  method : string;
  headers : gmap string string;
  body : string;
  keepalive : bool
}.

Record Request := {
  url : string;
  init : RequestInit
}.

Record Response := {
  status : Z;
  (** the outcome of [res.json()]: [None] when that promise rejects *)
  json : option ApnsResponseError
}.

(** The outcome of [await fetch(url, init)]. *)
Inductive FetchOutcome :=
  | Responded (res : Response)
  | NetworkError (t : Thrown).

(** ** The client object and the world around it *)

(** Listeners are user callbacks registered with [on]; the model tells them
    apart by a number, records each invocation, and takes a listener to
    return normally.  Listeners registered with [once], which leave the
    table when they are called, are not part of the model. *)
Definition Listener := nat.

Record ApnsClient := {
  team : string;
  keyId : string;
  host : string;
  signingKey : KeyMaterial;
  defaultTopic : option string;
  keepAlive : bool;
  _token : option SigningToken;
  (** the listener table of the inherited [EventEmitter] *)
  _events : gmap string (list Listener)
}.

Inductive Event :=
  | Ev_sign (o : SignerOptions) (c : Claims)
  | Ev_fetch (r : Request)
  | Ev_emit (name : string) (e : ApnsError)
  | Ev_listener (l : Listener) (name : string) (e : ApnsError).

Record World := {
  this : ApnsClient;
  (** how many times [Date.now()] has been read *)
  reads : nat;
  (** the calls that left the client, oldest first *)
  trace : list Event
}.

(** What the program takes from outside this file. *)
Class Platform := {
  (** errors.js, enum [Errors] *)
  Errors_expiredProviderToken : string;
  Errors_unknownError : string;
  Errors_error : string;
  (** notifications/notification.js, enum [Priority] *)
  Priority_immediate : Z;
  (** fast-jwt: [createSigner(options)(claims)], which may throw *)
  createSigner : SignerOptions -> Claims -> Completion string;
  encodeURIComponent : string -> string;
  (** the wall clock: the value of the k-th call of [Date.now()] *)
  clock : nat -> Z;
  (** [Number::toString] of a finite number of magnitude at least 1e21 *)
  Number_toString : float -> string
}.

(** ** The monad of the methods *)

Definition M (A : Type) : Type := World -> Completion A * World.

Definition ret {A} (a : A) : M A := fun w => (Normal a, w).

Definition throw {A} (t : Thrown) : M A := fun w => (Throw t, w).

Definition bind {A B} (c : M A) (k : A -> M B) : M B :=
  fun w =>
    match c w with
    | (Normal a, w') => k a w'
    | (Throw t, w') => (Throw t, w')
    end.

Notation "'let*' x ':=' c 'in' k" := (bind c (fun x => k))
  (at level 10, x name, c at level 100, k at level 200).
Notation "'do*' c 'in' k" := (bind c (fun _ => k))
  (at level 10, c at level 100, k at level 200).

Definition get_this : M ApnsClient := fun w => (Normal (this w), w).

Definition with_token (c : ApnsClient) (t : option SigningToken) : ApnsClient :=
  {| team := team c; keyId := keyId c; host := host c;
     signingKey := signingKey c; defaultTopic := defaultTopic c;
     keepAlive := keepAlive c; _token := t; _events := _events c |}.

(** [this._token = t] *)
Definition set_token (t : option SigningToken) : M unit :=
  fun w => (Normal tt,
            {| this := with_token (this w) t; reads := reads w; trace := trace w |}).

Definition log (ev : Event) : M unit :=
  fun w => (Normal tt,
            {| this := this w; reads := reads w; trace := trace w ++ [ev] |}).

Section Client.
Context `{Platform}.

Definition Date_now : M Z :=
  fun w => (Normal (clock (reads w)),
            {| this := this w; reads := S (reads w); trace := trace w |}).

(** [createSigner({ key, algorithm, kid })(claims)] *)
Definition sign (o : SignerOptions) (c : Claims) : M string :=
  do* log (Ev_sign o c) in
  match createSigner o c with
  | Normal token => ret token
  | Throw t => throw t
  end.

(** ** [_getSigningToken] *)

Definition _getSigningToken : M string :=
  let* me := get_this in
  (* this._token && Date.now() - this._token.timestamp < RESET_TOKEN_INTERVAL_MS *)
  let* cached :=
    match _token me with
    | None => ret None
    | Some t =>
        let* now := Date_now in
        ret (if bool_decide (now - timestamp t < RESET_TOKEN_INTERVAL_MS)
             then Some t else None)
    end in
  match cached with
  | Some t => ret (value t)
  | None =>
      let* now := Date_now in
      let claims := {| iss := team me; iat := now `div` 1000 |} in
      let* token := sign {| key := signingKey me;
                            algorithm := SIGNING_ALGORITHM;
                            kid := keyId me |} claims in
      let* now' := Date_now in
      do* set_token (Some {| value := token; timestamp := now' |}) in
      ret token
  end.

(** ** JavaScript numbers of the expiration header *)

(** The number of an integer of magnitude at most 2^53 (exact). *)
Definition float_of_Z (z : Z) : float :=
  match z with
  | Z0 => PrimFloat.of_uint63 (Uint63.of_Z 0)
  | Zpos _ => PrimFloat.of_uint63 (Uint63.of_Z z)
  | Zneg p => PrimFloat.opp (PrimFloat.of_uint63 (Uint63.of_Z (Zpos p)))
  end.

(** [Date.prototype.getTime()]: the time value, [NaN] for an invalid date
    (a time value beyond 8.64e15 ms makes the date invalid). *)
Definition getTime (d : Date) : float :=
  match d with
  | Date_of_ms ms =>
      if bool_decide (Z.abs ms <= 8640000000000000)
      then float_of_Z ms else PrimFloat.nan
  | Invalid_Date => PrimFloat.nan
  end.

(** The integer nearest to [m * 2^e], the larger one of two. *)
Definition round_half_up (m : positive) (e : Z) : Z :=
  if bool_decide (0 <= e) then Zpos m * 2 ^ e
  else (2 * Zpos m + 2 ^ (- e)) `div` (2 ^ (- e + 1)).

(** [10^21 <= m * 2^e] *)
Definition at_least_1e21 (m : positive) (e : Z) : bool :=
  if bool_decide (0 <= e) then bool_decide (10 ^ 21 <= Zpos m * 2 ^ e)
  else bool_decide (10 ^ 21 * 2 ^ (- e) <= Zpos m).

(** [Number.prototype.toFixed(0)] (ECMA-262, 21.1.3.3 with f = 0). *)
Definition toFixed0 (x : float) : string :=
  match Prim2SF x with
  | S754_nan => "NaN"
  | S754_infinity s => if s then "-Infinity" else "Infinity"
  | S754_zero _ => "0"
  | S754_finite s m e =>
      (if s then "-" else "") +:+
      (if at_least_1e21 m e then Number_toString (PrimFloat.abs x)
       else pretty (round_half_up m e))
  end.

(** [Number.prototype.toString()] of an integer. *)
Definition Z_toString (z : Z) : string := pretty z.

(** A string in a condition: the empty string is falsy. *)
Definition truthy (s : string) : bool :=
  match s with EmptyString => false | String _ _ => true end.

(** ** [send], up to the call of [fetch] (lines 65-96) *)

Definition expirationValue (expiration : Expiration) : string :=
  match expiration with
  | Expiration_number n => toFixed0 n
  | Expiration_Date d => toFixed0 (getTime d / 1000)%float
  end.

(** [Headers] is a map from lower-case names to values.  Every name the
    client sets is a lower-case literal; the values are taken to be valid
    header values, which [set] stores as they are. *)
Definition buildHeaders (me : ApnsClient) (token : string) (n : Notification)
  : gmap string string :=
  let headers : gmap string string := ∅ in
  let headers := <["authorization" := "bearer " +:+ token]> headers in
  let headers := <["apns-push-type" := pushType n]> headers in
  (* notification.options.topic ?? this.defaultTopic *)
  let apnsTopic :=
    match topic (options n) with
    | Some t => Some t
    | None => defaultTopic me
    end in
  let headers :=
    match apnsTopic with
    | Some t => if truthy t then <["apns-topic" := t]> headers else headers
    | None => headers
    end in
  let headers :=
    if bool_decide (priority n ≠ Priority_immediate)
    then <["apns-priority" := Z_toString (priority n)]> headers
    else headers in
  let headers :=
    match expiration (options n) with
    | Some expiration => <["apns-expiration" := expirationValue expiration]> headers
    | None => headers
    end in
  let headers :=
    match collapseId (options n) with
    | Some c => if truthy c then <["apns-collapse-id" := c]> headers else headers
    | None => headers
    end in
  headers.

Definition buildRequest (me : ApnsClient) (token : string) (n : Notification)
  : Request :=
  {| url := "https://" +:+ host me +:+ ":443/" +:+ Z_toString API_VERSION
            +:+ "/device/" +:+ encodeURIComponent (deviceToken n);
     init := {| method := "POST";
                headers := buildHeaders me token n;
                body := apnsOptionsJson n;
                keepalive := keepAlive me |} |}.

(** ** The inherited [EventEmitter.emit] *)

Fixpoint call_listeners (ls : list Listener) (name : string) (e : ApnsError)
  : M unit :=
  match ls with
  | [] => ret tt
  | l :: ls' => do* log (Ev_listener l name e) in call_listeners ls' name e
  end.

(** Node's [emit]: with no listener it returns [false], except on the
    channel "error", where it throws its argument (an unhandled 'error'
    event); otherwise it calls the listeners in order of registration. *)
Definition emit (name : string) (e : ApnsError) : M bool :=
  do* log (Ev_emit name e) in
  let* me := get_this in
  match default [] (_events me !! name) with
  | [] =>
      if bool_decide (name = "error") then throw (Thrown_ApnsError e)
      else ret false
  | ls => do* call_listeners ls name e in ret true
  end.

(** ** [_handleServerResponse] *)

Definition _handleServerResponse (res : Response) (n : Notification)
  : M Notification :=
  if bool_decide (status res = 200) then ret n
  else
    (* await res.json().catch(() => ({ reason, timestamp })) *)
    let* responseError :=
      match json res with
      | Some b => ret b
      | None =>
          let* now := Date_now in
          ret {| reason := Errors_unknownError; body_timestamp := Some now |}
      end in
    let error := {| statusCode := status res;
                    notification := n;
                    response := responseError |} in
    (* Reset signing token if expired *)
    do* (if bool_decide (ApnsError_reason error = Errors_expiredProviderToken)
         then set_token None else ret tt) in
    (* Emit specific and generic errors *)
    let* _ := emit (ApnsError_reason error) error in
    let* _ := emit Errors_error error in
    throw (Thrown_ApnsError error).

(** The body a rejected push is classified by: the parsed one, or the
    synthetic one when [res.json()] rejects (read at clock reading [k]). *)
Definition classified_body (res : Response) (k : nat) : ApnsResponseError :=
  match json res with
  | Some b => b
  | None => {| reason := Errors_unknownError; body_timestamp := Some (clock k) |}
  end.

Definition classified_error (res : Response) (n : Notification) (k : nat)
  : ApnsError :=
  {| statusCode := status res; notification := n;
     response := classified_body res k |}.

(** ** [send] *)

(** The synchronous part of [send]: it ends with the call of [fetch]. *)
Definition send_request (n : Notification) : M Request :=
  let* token := _getSigningToken in
  let* me := get_this in
  let req := buildRequest me token n in
  do* log (Ev_fetch req) in
  ret req.

(** [net] is the transport: what [await fetch(...)] comes back with. *)
Definition send (net : Request -> FetchOutcome) (n : Notification)
  : M Notification :=
  let* req := send_request n in
  match net req with
  | Responded res => _handleServerResponse res n
  | NetworkError t => throw t
  end.

(** ** [sendMany] *)

(** A promise is pending ([None]) or settled. *)
Definition Promise (A : Type) : Type := option (Completion A).

(** An element of the array [sendMany] resolves to:
    [Notification | { error }]. *)
Inductive SendManyResult :=
  | Sent (n : Notification)
  | Failed (error : Thrown).

(** A call [this.send(notification)] that has returned its promise: it
    awaits the transport, or has thrown before reaching [fetch]. *)
Inductive InFlight :=
  | Awaiting (n : Notification) (req : Request)
  | Rejected_at_start (t : Thrown).

Definition start_send (n : Notification) : M InFlight :=
  fun w =>
    match send_request n w with
    | (Normal req, w') => (Normal (Awaiting n req), w')
    | (Throw t, w') => (Normal (Rejected_at_start t), w')
    end.

(** [notifications.map((notification) => this.send(notification)...)]:
    the synchronous parts run to completion one after the other, in the
    order of the array, before any response is handled. *)
Fixpoint start_all (ns : list Notification) : M (list InFlight) :=
  match ns with
  | [] => ret []
  | n :: ns' =>
      let* p := start_send n in
      let* ps := start_all ns' in
      ret (p :: ps)
  end.

(** The rest of [send] once the transport has answered request [i]; the
    completion is the state the promise of [send] settles in.  Between its
    two awaits [_handleServerResponse] touches nothing, so it is one step. *)
Definition finish_send (net : nat -> Request -> FetchOutcome) (i : nat)
    (p : InFlight) : M (Completion Notification) :=
  match p with
  | Rejected_at_start t => ret (Throw t)
  | Awaiting n req =>
      match net i req with
      | NetworkError t => ret (Throw t)
      | Responded res =>
          fun w => let (r, w') := _handleServerResponse res n w in (Normal r, w')
      end
  end.

(** [.catch((error: ApnsError) => ({ error }))] *)
Definition catch_error (r : Completion Notification) : Completion SendManyResult :=
  match r with
  | Normal n => Normal (Sent n)
  | Throw t => Normal (Failed t)
  end.

(** The sends complete in the order [order] (indices into the array); an
    index out of range or already settled is skipped. *)
Fixpoint settle_in_order (net : nat -> Request -> FetchOutcome)
    (flights : list InFlight) (order : list nat)
    (promises : list (Promise SendManyResult))
  : M (list (Promise SendManyResult)) :=
  match order with
  | [] => ret promises
  | i :: order' =>
      match flights !! i, promises !! i with
      | Some p, Some None =>
          let* r := finish_send net i p in
          settle_in_order net flights order' (<[i := Some (catch_error r)]> promises)
      | _, _ => settle_in_order net flights order' promises
      end
  end.

(** [Promise.all]: rejected as soon as one promise is, fulfilled with the
    values in the order of the array once all are, pending until then. *)
Fixpoint Promise_all {A} (ps : list (Promise A)) : Promise (list A) :=
  match ps with
  | [] => Some (Normal [])
  | p :: ps' =>
      match p, Promise_all ps' with
      | Some (Throw t), _ => Some (Throw t)
      | _, Some (Throw t) => Some (Throw t)
      | Some (Normal a), Some (Normal l) => Some (Normal (a :: l))
      | _, _ => None
      end
  end.

(** The promise [sendMany] returns, after the transport has answered the
    requests in the order [order]. *)
Definition sendMany (net : nat -> Request -> FetchOutcome) (order : list nat)
    (ns : list Notification) : M (Promise (list SendManyResult)) :=
  let* flights := start_all ns in
  let* promises := settle_in_order net flights order (replicate (length ns) None) in
  ret (Promise_all promises).


(** What position [i] of the result must hold, given how the send behind
    it went: the notification, or the error of the signer, of the
    transport, or of the classification. *)
Definition settles_as (net : nat -> Request -> FetchOutcome) (i : nat)
    (p : InFlight) (r : SendManyResult) : Prop :=
  match p with
  | Rejected_at_start t => r = Failed t
  | Awaiting n req =>
      match net i req with
      | NetworkError t => r = Failed t
      | Responded res =>
          if bool_decide (status res = 200) then r = Sent n
          else ∃ k, r = Failed (Thrown_ApnsError (classified_error res n k))
      end
  end.


End Client.


(** ** The constructor, and the inherited [on] *)

(** [_supressH2Warning] registers a one-shot handler on the global
    [process] object; it reads no option and no field of the client. *)
Definition constructor (options : ApnsOptions) : ApnsClient :=
  {| team := opt_team options;
     keyId := opt_keyId options;
     signingKey := opt_signingKey options;
     defaultTopic := opt_defaultTopic options;
     host := default Host.production (opt_host options);
     keepAlive := default true (opt_keepAlive options);
     _token := None;
     _events := ∅ |}.


(** The world in which a client has just been constructed. *)
Definition fresh_world (c : ApnsClient) (k : nat) (tr : list Event) : World :=
  {| this := c; reads := k; trace := tr |}.

(** ** Reading the trace *)

(** The calls of the signer in a trace, oldest first. *)
Definition sign_calls (tr : list Event) : list (SignerOptions * Claims) :=
  omap (λ ev, match ev with Ev_sign o c => Some (o, c) | _ => None end) tr.

(** The calls of [emit] in a trace: channel and payload, oldest first. *)
Definition emissions (tr : list Event) : list (string * ApnsError) :=
  omap (λ ev, match ev with Ev_emit name e => Some (name, e) | _ => None end) tr.

(** The listeners registered on a channel. *)
Definition listeners (c : ApnsClient) (name : string) : list Listener :=
  default [] (_events c !! name).

(** What one call of [emit] adds to the trace. *)
Definition emit_trace (c : ApnsClient) (name : string) (e : ApnsError)
  : list Event :=
  Ev_emit name e :: map (λ l, Ev_listener l name e) (listeners c name).

(** [emit] throws exactly on the channel "error" without a listener. *)
Definition emit_throws (c : ApnsClient) (name : string) : bool :=
  bool_decide (name = "error") && bool_decide (listeners c name = []).


(** C9, as the specification words it: a failed send emits the error once
    on the channel of its reason and once on the generic channel, then
    throws it, and neither emission throws when its channel has no
    listener. *)
Definition error_events_as_specified `{Platform}
    (res : Response) (n : Notification) (w : World) : Prop :=
  let e := classified_error res n (reads w) in
  let out := _handleServerResponse res n w in
  out.1 = Throw (Thrown_ApnsError e) ∧
  emissions (trace out.2)
  = emissions (trace w) ++ [(ApnsError_reason e, e); (Errors_error, e)] ∧
  (∀ name w1, name = ApnsError_reason e ∨ name = Errors_error →
              this w1 = this out.2 → listeners (this w1) name = [] →
              ∃ b, (emit name e w1).1 = Normal b).

(** ** A platform to run the model on *)

(** The members of [Errors] are spelled here as the specification spells
    them.  errors.js is not among the sources, and the theorems hold
    whatever the spelling is. *)
Definition demo_platform : Platform :=
  {| Errors_expiredProviderToken := "ExpiredProviderToken";
     Errors_unknownError := "Unknown error";
     Errors_error := "error";
     Priority_immediate := 10;
     createSigner := fun o c =>
       if truthy (key o)
       then Normal ("jwt:" +:+ iss c +:+ ":" +:+ pretty (iat c) +:+ ":" +:+ kid o)
       else Throw (Thrown_Error "invalid key");
     encodeURIComponent := fun s => s;
     clock := fun k => 1700000000000 + 1000 * Z.of_nat k;
     Number_toString := fun _ => "1e+21" |}.

Definition demo_client : ApnsClient :=
  constructor {| opt_team := "TEAM"; opt_signingKey := "KEY";
                 opt_keyId := "KID"; opt_defaultTopic := Some "com.example.app";
                 opt_host := None; opt_requestTimeout := None;
                 opt_keepAlive := None |}.

Definition demo_notification (t : option string) (e : option Expiration)
  : Notification :=
  {| deviceToken := "00ff"; pushType := "alert"; priority := 5;
     options := {| topic := t; expiration := e; collapseId := None |};
     apnsOptionsJson := "{}" |}.

(** A world whose client holds a token minted [age] milliseconds before
    the next reading of the demo clock. *)
Definition demo_world_with_token (age : Z) : World :=
  fresh_world
    (with_token demo_client
       (Some {| value := "cached"; timestamp := 1700000000000 - age |}))
    0 [].

Definition demo_response (st : Z) (b : option ApnsResponseError) : Response :=
  {| status := st; json := b |}.

Definition demo_body (r : string) : ApnsResponseError :=
  {| reason := r; body_timestamp := Some 1700000000000 |}.

(** A transport that accepts the first notification of a batch and
    rejects every other one as unregistered. *)
Definition demo_net (i : nat) (_ : Request) : FetchOutcome :=
  match i with
  | O => Responded (demo_response 200 None)
  | S _ => Responded (demo_response 410 (Some (demo_body "Unregistered")))
  end.


Definition demo_unregistered : Response :=
  demo_response 410 (Some (demo_body "Unregistered")).

Definition demo_error (n : Notification) : ApnsError :=
  {| statusCode := 410; notification := n;
     response := demo_body "Unregistered" |}.

(** ** [Headers.set] as the Fetch standard has it *)

(** Strings stand for JavaScript strings written in UTF-8, as string
    literals are here.  [Headers.set(name, value)] converts the value to a
    ByteString, which fails on a character above U+00FF; it then strips
    the HTTP whitespace around the value, and refuses a value that still
    holds NUL, LF or CR.  Every failure is a [TypeError]. *)

(** Tab, line feed, carriage return, space. *)
Definition http_whitespace (a : Ascii.ascii) : bool :=
  let c := Ascii.N_of_ascii a in
  ((c =? 9) || (c =? 10) || (c =? 13) || (c =? 32))%N.

(** NUL, line feed, carriage return. *)
Definition forbidden_in_value (a : Ascii.ascii) : bool :=
  let c := Ascii.N_of_ascii a in
  ((c =? 0) || (c =? 10) || (c =? 13))%N.

(** In UTF-8 a character above U+00FF starts with a byte from 0xC4 on. *)
Definition above_latin1 (a : Ascii.ascii) : bool := (196 <=? Ascii.N_of_ascii a)%N.

Fixpoint string_forall (f : Ascii.ascii -> bool) (s : string) : bool :=
  match s with
  | EmptyString => true
  | String a s' => f a && string_forall f s'
  end.

Fixpoint strip_leading (s : string) : string :=
  match s with
  | EmptyString => EmptyString
  | String a s' => if http_whitespace a then strip_leading s' else s
  end.

Definition strip_trailing (s : string) : string :=
  String.rev (strip_leading (String.rev s)).

Definition headerValueNormalize (s : string) : string :=
  strip_trailing (strip_leading s).

Definition ByteString_ok (s : string) : bool :=
  string_forall (λ a, negb (above_latin1 a)) s.

(** After normalisation a value has no whitespace around it; what is left
    to check is that it holds no NUL and no newline. *)
Definition isValidHeaderValue (s : string) : bool :=
  string_forall (λ a, negb (forbidden_in_value a)) s.

(** The value can be stored in a header. *)
Definition storable (s : string) : bool :=
  ByteString_ok s && isValidHeaderValue (headerValueNormalize s).

(** The [TypeError] of the platform; its message is not modelled. *)
Definition TypeError : Thrown := Thrown_Error "TypeError".

Definition Headers_set (name value : string) (h : gmap string string)
  : Completion (gmap string string) :=
  if ByteString_ok value then
    let value := headerValueNormalize value in
    if isValidHeaderValue value then Normal (<[name := value]> h)
    else Throw TypeError
  else Throw TypeError.

Definition and_then {A B} (c : Completion A) (k : A -> Completion B)
  : Completion B :=
  match c with
  | Normal a => k a
  | Throw t => Throw t
  end.

Notation "'let+' x ':=' c 'in' k" := (and_then c (fun x => k))
  (at level 10, x name, c at level 100, k at level 200).

(** ** The client over [Headers.set] *)

(** [buildHeaders] above stores every value as the caller gave it, which
    is what [Headers.set] does with a value that is valid and has no
    whitespace around it.  The methods of this module go through
    [Headers_set], so that a value is stored normalised and an invalid one
    makes [send] throw before it reaches [fetch]. *)
Module Strict.
Section Client.
Context `{Platform}.

(** Lines 65-88 of [send]. *)
Definition send_headers (me : ApnsClient) (token : string) (n : Notification)
  : Completion (gmap string string) :=
  let+ headers := Headers_set "authorization" ("bearer " +:+ token) ∅ in
  let+ headers := Headers_set "apns-push-type" (pushType n) headers in
  (* notification.options.topic ?? this.defaultTopic *)
  let apnsTopic :=
    match topic (options n) with
    | Some t => Some t
    | None => defaultTopic me
    end in
  let+ headers :=
    match apnsTopic with
    | Some t => if truthy t then Headers_set "apns-topic" t headers
                else Normal headers
    | None => Normal headers
    end in
  let+ headers :=
    if bool_decide (priority n ≠ Priority_immediate)
    then Headers_set "apns-priority" (Z_toString (priority n)) headers
    else Normal headers in
  let+ headers :=
    match expiration (options n) with
    | Some expiration =>
        Headers_set "apns-expiration" (expirationValue expiration) headers
    | None => Normal headers
    end in
  match collapseId (options n) with
  | Some c => if truthy c then Headers_set "apns-collapse-id" c headers
              else Normal headers
  | None => Normal headers
  end.

(** Lines 65-96 of [send] once the token is known: the request that goes
    to [fetch], or the [TypeError] of a header. *)
Definition checked_request (me : ApnsClient) (token : string) (n : Notification)
  : Completion Request :=
  let+ headers := send_headers me token n in
  Normal {| url := "https://" +:+ host me +:+ ":443/" +:+ Z_toString API_VERSION
                   +:+ "/device/" +:+ encodeURIComponent (deviceToken n);
            init := {| method := "POST";
                       headers := headers;
                       body := apnsOptionsJson n;
                       keepalive := keepAlive me |} |}.

(** The synchronous part of [send]. *)
Definition send_request (n : Notification) : M Request :=
  let* token := _getSigningToken in
  let* me := get_this in
  match checked_request me token n with
  | Normal req => do* log (Ev_fetch req) in ret req
  | Throw t => throw t
  end.

Definition send (net : Request -> FetchOutcome) (n : Notification)
  : M Notification :=
  let* req := send_request n in
  match net req with
  | Responded res => _handleServerResponse res n
  | NetworkError t => throw t
  end.

Definition start_send (n : Notification) : M InFlight :=
  fun w =>
    match send_request n w with
    | (Normal req, w') => (Normal (Awaiting n req), w')
    | (Throw t, w') => (Normal (Rejected_at_start t), w')
    end.

Fixpoint start_all (ns : list Notification) : M (list InFlight) :=
  match ns with
  | [] => ret []
  | n :: ns' =>
      let* p := start_send n in
      let* ps := start_all ns' in
      ret (p :: ps)
  end.

Definition sendMany (net : nat -> Request -> FetchOutcome) (order : list nat)
    (ns : list Notification) : M (Promise (list SendManyResult)) :=
  let* flights := start_all ns in
  let* promises := settle_in_order net flights order (replicate (length ns) None) in
  ret (Promise_all promises).

(** The values [send] passes to [headers.set], with their names, in the
    order of the calls. *)
Definition header_entries (me : ApnsClient) (token : string) (n : Notification)
  : list (string * string) :=
  [("authorization", "bearer " +:+ token); ("apns-push-type", pushType n)]
  ++ match match topic (options n) with
           | Some t => Some t
           | None => defaultTopic me
           end with
     | Some t => if truthy t then [("apns-topic", t)] else []
     | None => []
     end
  ++ (if bool_decide (priority n ≠ Priority_immediate)
      then [("apns-priority", Z_toString (priority n))] else [])
  ++ match expiration (options n) with
     | Some expiration => [("apns-expiration", expirationValue expiration)]
     | None => []
     end
  ++ match collapseId (options n) with
     | Some c => if truthy c then [("apns-collapse-id", c)] else []
     | None => []
     end.

(** Every value of the request can be stored. *)
Definition headers_storable (me : ApnsClient) (token : string) (n : Notification)
  : bool :=
  forallb (λ kv, storable kv.2) (header_entries me token n).

(** The request [send] issues for the notification, if its headers can be
    stored. *)
Definition issued (me : ApnsClient) (token : string) (n : Notification)
  : option Request :=
  match checked_request me token n with
  | Normal req => Some req
  | Throw _ => None
  end.

End Client.

Fixpoint set_all (es : list (string * string)) (h : gmap string string)
  : Completion (gmap string string) :=
  match es with
  | [] => Normal h
  | (name, value) :: es' => let+ h' := Headers_set name value h in set_all es' h'
  end.

(** The map after every entry has been stored. *)
Definition stored (es : list (string * string)) (h : gmap string string)
  : gmap string string :=
  foldl (λ h kv, <[kv.1 := headerValueNormalize kv.2]> h) h es.

End Strict.

(** A line feed. *)
Definition LF : string := String (Ascii.ascii_of_N 10) EmptyString.

(** A platform that spells the generic channel with a capital. *)
Definition demo_platform_capital : Platform :=
  {| Errors_expiredProviderToken := "ExpiredProviderToken";
     Errors_unknownError := "UnknownError";
     Errors_error := "Error";
     Priority_immediate := 10;
     createSigner := fun o c =>
       if truthy (key o)
       then Normal ("jwt:" +:+ iss c +:+ ":" +:+ pretty (iat c) +:+ ":" +:+ kid o)
       else Throw (Thrown_Error "invalid key");
     encodeURIComponent := fun s => s;
     clock := fun k => 1700000000000 + 1000 * Z.of_nat k;
     Number_toString := fun _ => "1e+21" |}.

(** ** Further readings of the world *)

(** The requests handed to [fetch] in a trace, oldest first. *)
Definition fetches (tr : list Event) : list Request :=
  omap (λ ev, match ev with Ev_fetch r => Some r | _ => None end) tr.

(** The client apart from its token: the read-only fields and the
    listener table. *)
Definition config_of (c : ApnsClient) : ApnsClient := with_token c None.



(** The demo client with a key that the demo signer refuses. *)
Definition demo_client_bad_key : ApnsClient :=
  constructor {| opt_team := "TEAM"; opt_signingKey := "";
                 opt_keyId := "KID"; opt_defaultTopic := None;
                 opt_host := None; opt_requestTimeout := None;
                 opt_keepAlive := None |}.

Definition demo_options : ApnsOptions :=
  {| opt_team := "TEAM"; opt_signingKey := "KEY"; opt_keyId := "KID";
     opt_defaultTopic := None; opt_host := None;
     opt_requestTimeout := None; opt_keepAlive := None |}.


(** ** The [process] object and [_supressH2Warning] *)

(** A warning, as far as the handler reads it: [Error & { code?: string }]. *)
Record Warning := {
  warning_code : option string;
  warning_message : string
}.

(** A listener of the event "warning" of [process]: somebody else's
    (registered with [on], told apart by a number, taken to record the
    warning and return), or the one-shot handler that the constructor of
    the client with that number registered. *)
Inductive WarningListener :=
  | Other_listener (id : nat)
  | SupressH2_once (id : nat).

#[global] Instance WarningListener_eq_dec : EqDecision WarningListener.
Proof. solve_decision. Defined.

Record Process := {
  warning_listeners : list WarningListener;
  (** how many one-shot handlers have been made so far *)
  handlers_made : nat;
  (** the warnings the other listeners were called with, oldest first *)
  warnings_seen : list (nat * Warning)
}.

Definition others (ls : list WarningListener) : list nat :=
  omap (λ l, match l with Other_listener id => Some id | _ => None end) ls.

Definition handlers (ls : list WarningListener) : list nat :=
  omap (λ l, match l with SupressH2_once id => Some id | _ => None end) ls.

Definition deliver (id : nat) (wn : Warning) (p : Process) : Process :=
  {| warning_listeners := warning_listeners p;
     handlers_made := handlers_made p;
     warnings_seen := warnings_seen p ++ [(id, wn)] |}.

(** The other listeners have seen the warnings [seen] since. *)
Definition seen_more (p : Process) (seen : list (nat * Warning)) : Process :=
  {| warning_listeners := warning_listeners p;
     handlers_made := handlers_made p;
     warnings_seen := warnings_seen p ++ seen |}.

(** [removeListener("warning", wrapper)] *)
Definition unregister (id : nat) (p : Process) : Process :=
  {| warning_listeners :=
       filter (λ l, l ≠ SupressH2_once id) (warning_listeners p);
     handlers_made := handlers_made p;
     warnings_seen := warnings_seen p |}.

(** One listener of the snapshot is called.  The wrapper that [once] puts
    around a handler does nothing once it has fired; otherwise it removes
    itself and then runs the handler of [_supressH2Warning]:
    [if (warning.code === "UNDICI-H2") return;
     process.emit("warning", warning)]. *)
Definition invoke (emit : Warning -> Process -> option Process)
    (wn : Warning) (l : WarningListener) (p : Process) : option Process :=
  match l with
  | Other_listener id => Some (deliver id wn p)
  | SupressH2_once id =>
      if bool_decide (SupressH2_once id ∈ warning_listeners p) then
        let p' := unregister id p in
        if bool_decide (warning_code wn = Some "UNDICI-H2") then Some p'
        else emit wn p'
      else Some p
  end.

Fixpoint call_in_turn (emit : Warning -> Process -> option Process)
    (wn : Warning) (snapshot : list WarningListener) (p : Process)
  : option Process :=
  match snapshot with
  | [] => Some p
  | l :: rest =>
      match invoke emit wn l p with
      | Some p' => call_in_turn emit wn rest p'
      | None => None
      end
  end.

(** [process.emit("warning", warning)]: the listeners registered when the
    call starts are called in turn.  The handler emits again from within,
    so the depth of the calls is bounded by [fuel]; [None] is out of
    fuel. *)
Fixpoint emit_warning (fuel : nat) (wn : Warning) (p : Process)
  : option Process :=
  match fuel with
  | O => None
  | S fuel' => call_in_turn (emit_warning fuel') wn (warning_listeners p) p
  end.

(** Each nested emission follows the removal of a handler: one level more
    than there are listeners is enough. *)
Definition process_emit_warning (wn : Warning) (p : Process) : option Process :=
  emit_warning (S (length (warning_listeners p))) wn p.

(** [process.on("warning", listener)] *)
Definition process_on_warning (id : nat) (p : Process) : Process :=
  {| warning_listeners := warning_listeners p ++ [Other_listener id];
     handlers_made := handlers_made p;
     warnings_seen := warnings_seen p |}.

(** [process.once("warning", handler)], with a new handler. *)
Definition _supressH2Warning (p : Process) : Process :=
  {| warning_listeners := warning_listeners p ++ [SupressH2_once (handlers_made p)];
     handlers_made := S (handlers_made p);
     warnings_seen := warnings_seen p |}.

(** The one-shot handlers in the table are distinct and were made by
    [_supressH2Warning]. *)
Definition handlers_distinct (p : Process) : Prop :=
  NoDup (handlers (warning_listeners p)) ∧
  Forall (λ id, (id < handlers_made p)%nat) (handlers (warning_listeners p)).

(** The warnings [n] rounds of calling every other listener once deliver. *)
Definition rounds (n : nat) (wn : Warning) (ls : list WarningListener)
  : list (nat * Warning) :=
  mjoin (replicate n (map (λ id, (id, wn)) (others ls))).

(** A process with two listeners of its own in which two clients are
    constructed, one before and one after the second listener. *)
Definition demo_process : Process :=
  _supressH2Warning
    (process_on_warning 8
       (_supressH2Warning
          (process_on_warning 7
             {| warning_listeners := []; handlers_made := 0;
                warnings_seen := [] |}))).

Definition demo_warning (c : option string) : Warning :=
  {| warning_code := c; warning_message := "a warning" |}.

(** ** The token cache *)

Section Token.
Context `{Platform}.

(** C1: a cached token younger than 55 minutes is returned as it is, and
    the signer is not called; otherwise the signer is called exactly once,
    with the claims [{ iss: team, iat: floor(now / 1000) }], ES256 and the
    key id, and the token it returns is stored with the time of storing and
    returned. *)
Theorem C1_getSigningToken (w : World) :
  let me := this w in
  (∀ t, _token me = Some t →
        clock (reads w) - timestamp t < RESET_TOKEN_INTERVAL_MS →
        _getSigningToken w
        = (Normal (value t),
           {| this := me; reads := S (reads w); trace := trace w |})) ∧
  (∀ k,
     (_token me = None ∧ k = reads w) ∨
     (∃ t, _token me = Some t ∧
           RESET_TOKEN_INTERVAL_MS ≤ clock (reads w) - timestamp t ∧
           k = S (reads w)) →
     let claims := {| iss := team me; iat := clock k `div` 1000 |} in
     let o := {| key := signingKey me; algorithm := "ES256"; kid := keyId me |} in
     sign_calls (trace (_getSigningToken w).2) = sign_calls (trace w) ++ [(o, claims)] ∧
     ∀ token, createSigner o claims = Normal token →
       _getSigningToken w
       = (Normal token,
          {| this := with_token me (Some {| value := token; timestamp := clock (S k) |});
             reads := S (S k);
             trace := trace w ++ [Ev_sign o claims] |})).
Proof.
  destruct w as [me k0 tr]; cbn [this reads trace]. split.
  - intros t Ht Hage.
    unfold _getSigningToken, bind, get_this, Date_now, ret; cbn.
    rewrite Ht; cbn. by rewrite bool_decide_eq_true_2.
  - intros k Hk.
    assert (sign_calls (tr ++ [Ev_sign
              {| key := signingKey me; algorithm := "ES256"; kid := keyId me |}
              {| iss := team me; iat := clock k `div` 1000 |}])
            = sign_calls tr ++
              [({| key := signingKey me; algorithm := "ES256"; kid := keyId me |},
                {| iss := team me; iat := clock k `div` 1000 |})]) as Hcalls.
    { unfold sign_calls. by rewrite omap_app. }
    destruct Hk as [[Ht ->] | (t & Ht & Hage & ->)];
      unfold _getSigningToken, bind, get_this, Date_now, ret, sign, log,
        set_token, throw, SIGNING_ALGORITHM; cbn;
      rewrite Ht; cbn;
      try rewrite bool_decide_eq_false_2 by lia; cbn.
    all: split; [by destruct (createSigner _ _)|by intros token ->].
Qed.

(** Without a cached token the signer is called, whatever the clock says. *)
Lemma getSigningToken_without_token (w : World) :
  _token (this w) = None →
  sign_calls (trace (_getSigningToken w).2)
  = sign_calls (trace w)
    ++ [({| key := signingKey (this w); algorithm := "ES256"; kid := keyId (this w) |},
         {| iss := team (this w); iat := clock (reads w) `div` 1000 |})].
Proof.
  destruct w as [me k tr]; cbn [this reads trace]. intros Ht.
  unfold _getSigningToken, bind, get_this, Date_now, ret, sign, log,
    set_token, throw, SIGNING_ALGORITHM; cbn.
  rewrite Ht; cbn.
  destruct (createSigner _ _); cbn; unfold sign_calls; by rewrite omap_app.
Qed.

End Token.

(** ** Events and the classification of responses *)

Section Classify.
Context `{Platform}.

Lemma call_listeners_spec (ls : list Listener) (name : string) (e : ApnsError)
    (w : World) :
  call_listeners ls name e w
  = (Normal tt,
     {| this := this w; reads := reads w;
        trace := trace w ++ map (λ l, Ev_listener l name e) ls |}).
Proof.
  revert w. induction ls as [|l ls IH]; intros [me k tr]; cbn.
  - unfold ret. by rewrite app_nil_r.
  - unfold bind, log; cbn. rewrite IH; cbn. by rewrite <- app_assoc.
Qed.

Lemma emit_spec (name : string) (e : ApnsError) (w : World) :
  emit name e w
  = (if emit_throws (this w) name then Throw (Thrown_ApnsError e)
     else Normal (negb (bool_decide (listeners (this w) name = []))),
     {| this := this w; reads := reads w;
        trace := trace w ++ emit_trace (this w) name e |}).
Proof.
  destruct w as [me k tr].
  unfold emit, emit_throws, emit_trace, bind, log, get_this; cbn.
  fold (listeners me name).
  destruct (listeners me name) as [|l ls] eqn:Hls.
  - case_bool_decide; cbn; unfold throw, ret; done.
  - rewrite andb_false_r, call_listeners_spec; cbn. unfold ret.
    by rewrite <- !app_assoc.
Qed.

(** Every response other than 200 ends in a throw of the error built from
    it; on the way the token may be reset and the error is emitted. *)
Lemma handleServerResponse_rejected (res : Response) (n : Notification)
    (w : World) :
  status res ≠ 200 →
  let e := classified_error res n (reads w) in
  let me' := if bool_decide (ApnsError_reason e = Errors_expiredProviderToken)
             then with_token (this w) None else this w in
  _handleServerResponse res n w
  = (Throw (Thrown_ApnsError e),
     {| this := me';
        reads := match json res with Some _ => reads w | None => S (reads w) end;
        trace := trace w ++ emit_trace me' (ApnsError_reason e) e
                 ++ (if emit_throws me' (ApnsError_reason e) then []
                     else emit_trace me' Errors_error e) |}).
Proof.
  intros Hst. destruct w as [me k tr]; cbn [this reads trace].
  unfold _handleServerResponse. rewrite bool_decide_eq_false_2 by done.
  unfold classified_error, classified_body, ApnsError_reason.
  cbn [statusCode response reason].
  set (k' := match json res with Some _ => k | None => S k end).
  set (b := match json res with Some b => b | None => _ end).
  assert ((match json res with
           | Some b0 => ret b0
           | None =>
               let* now := Date_now in
               ret {| reason := Errors_unknownError; body_timestamp := Some now |}
           end) {| this := me; reads := k; trace := tr |}
          = (Normal b, {| this := me; reads := k'; trace := tr |})) as Hb.
  { subst b k'. by destruct (json res). }
  unfold bind at 1. rewrite Hb. clear Hb.
  unfold bind at 1.
  destruct (bool_decide (reason b = Errors_expiredProviderToken));
    unfold set_token, ret; cbn [this reads trace];
    unfold bind; rewrite emit_spec; cbn [this reads trace fst snd];
    (destruct (emit_throws _ (reason b)); [by rewrite app_nil_r|]);
    rewrite emit_spec; cbn [this reads trace];
    destruct (emit_throws _ Errors_error); unfold throw;
    by rewrite <- app_assoc.
Qed.

Lemma emissions_app (tr1 tr2 : list Event) :
  emissions (tr1 ++ tr2) = emissions tr1 ++ emissions tr2.
Proof. apply omap_app. Qed.

Lemma emissions_emit_trace (c : ApnsClient) (name : string) (e : ApnsError) :
  emissions (emit_trace c name e) = [(name, e)].
Proof.
  unfold emit_trace, emissions; cbn. f_equal.
  induction (listeners c name) as [|l ls IH]; [done|by cbn].
Qed.

(** C3: a response with status 200 gives back the notification it was
    called with and changes nothing; any other status with a parsed body
    [{ reason, timestamp }] throws an error with that status code, that
    reason and timestamp, and the notification. *)
Theorem C3_classification (res : Response) (n : Notification) (w : World) :
  (status res = 200 → _handleServerResponse res n w = (Normal n, w)) ∧
  (∀ b, status res ≠ 200 → json res = Some b →
        ∃ e, (_handleServerResponse res n w).1 = Throw (Thrown_ApnsError e) ∧
             statusCode e = status res ∧
             ApnsError_reason e = reason b ∧
             ApnsError_timestamp e = body_timestamp b ∧
             notification e = n).
Proof.
  split.
  - intros Hst. unfold _handleServerResponse.
    by rewrite bool_decide_eq_true_2.
  - intros b Hst Hb. rewrite handleServerResponse_rejected by done.
    eexists; split; [reflexivity|].
    unfold classified_error, classified_body, ApnsError_reason,
      ApnsError_timestamp; cbn. by rewrite Hb.
Qed.

(** C5: when the body of a response other than 200 cannot be parsed, the
    failure of [res.json()] is not what the call throws: it throws the
    error built from the actual status code and the body
    [{ reason: Errors.unknownError, timestamp: Date.now() }]. *)
Theorem C5_unparseable_body (res : Response) (n : Notification) (w : World) :
  status res ≠ 200 → json res = None →
  (_handleServerResponse res n w).1
  = Throw (Thrown_ApnsError
             {| statusCode := status res;
                notification := n;
                response := {| reason := Errors_unknownError;
                               body_timestamp := Some (clock (reads w)) |} |}).
Proof.
  intros Hst Hb. rewrite handleServerResponse_rejected by done.
  unfold classified_error, classified_body; cbn. by rewrite Hb.
Qed.

(** C2: a response other than 200 classified as
    [Errors.expiredProviderToken] clears the cached token, and the next
    acquisition calls the signer whatever the clock reads; with any other
    reason the client is left as it was. *)
Theorem C2_expired_provider_token (res : Response) (n : Notification) (w : World) :
  status res ≠ 200 →
  let e := classified_error res n (reads w) in
  let w' := (_handleServerResponse res n w).2 in
  (ApnsError_reason e = Errors_expiredProviderToken →
   _token (this w') = None ∧
   sign_calls (trace (_getSigningToken w').2)
   = sign_calls (trace w')
     ++ [({| key := signingKey (this w); algorithm := "ES256"; kid := keyId (this w) |},
          {| iss := team (this w); iat := clock (reads w') `div` 1000 |})]) ∧
  (ApnsError_reason e ≠ Errors_expiredProviderToken → this w' = this w).
Proof.
  intros Hst e w'. subst w'.
  pose proof (handleServerResponse_rejected res n w Hst) as Hout.
  cbv zeta in Hout. fold e in Hout. rewrite Hout. cbn [snd]. split.
  - intros He. rewrite bool_decide_eq_true_2 by done.
    split; [done|]. by rewrite getSigningToken_without_token.
  - intros He. by rewrite bool_decide_eq_false_2.
Qed.

End Classify.

(** ** The batch *)

Section Batch.
Context `{Platform}.
Variable net : nat -> Request -> FetchOutcome.


Lemma finish_send_settles (i : nat) (p : InFlight) (w : World) :
  ∃ c r w', finish_send net i p w = (Normal c, w') ∧
            catch_error c = Normal r ∧ settles_as net i p r.
Proof.
  destruct p as [n req|t]; cbn.
  - destruct (net i req) as [res|t].
    + destruct (decide (status res = 200)) as [Hst|Hst].
      * unfold _handleServerResponse. rewrite !bool_decide_eq_true_2 by done.
        eexists _, _, _. split; [reflexivity|]. by split.
      * rewrite handleServerResponse_rejected by done.
        eexists _, _, _. split; [reflexivity|]. split; [reflexivity|].
        rewrite bool_decide_eq_false_2 by done. by eexists.
    + eexists _, _, _. split; [reflexivity|]. by split.
  - eexists _, _, _. split; [reflexivity|]. by split.
Qed.





End Batch.

(** ** Headers of the built request *)

Ltac headers_cases :=
  unfold buildHeaders;
  repeat (case_match; simplify_eq/=);
  repeat case_bool_decide;
  by simplify_map_eq.

Section Headers.
Context `{Platform}.

Lemma buildHeaders_topic (me : ApnsClient) (token : string) (n : Notification) :
  buildHeaders me token n !! "apns-topic" =
  match topic (options n) with
  | Some t => if truthy t then Some t else None
  | None =>
      match defaultTopic me with
      | Some t => if truthy t then Some t else None
      | None => None
      end
  end.
Proof. headers_cases. Qed.

Lemma buildHeaders_priority (me : ApnsClient) (token : string) (n : Notification) :
  buildHeaders me token n !! "apns-priority" =
  if bool_decide (priority n = Priority_immediate) then None
  else Some (Z_toString (priority n)).
Proof. headers_cases. Qed.

Lemma buildHeaders_expiration (me : ApnsClient) (token : string) (n : Notification) :
  buildHeaders me token n !! "apns-expiration" =
  expirationValue <$> expiration (options n).
Proof. headers_cases. Qed.

End Headers.

(** ** Request building: priority, expiration, topic *)

Section Request_headers.
Context `{Platform}.

(** C6: a notification whose priority is [Priority.immediate] gets no
    apns-priority header; with any other priority the header is that
    priority's number rendered as a string. *)
Theorem C6_priority_header (me : ApnsClient) (token : string) (n : Notification) :
  (priority n = Priority_immediate →
   headers (init (buildRequest me token n)) !! "apns-priority" = None) ∧
  (priority n ≠ Priority_immediate →
   headers (init (buildRequest me token n)) !! "apns-priority"
   = Some (Z_toString (priority n))).
Proof.
  cbn [buildRequest init headers]. rewrite buildHeaders_priority.
  split; intros Hp; case_bool_decide; done.
Qed.

(** [===] on numbers identifies +0 with -0 and nothing else that
    [toFixed(0)] could tell apart. *)
Lemma toFixed0_strict_equal (x y : float) :
  (x =? y)%float = true → toFixed0 x = toFixed0 y.
Proof.
  rewrite FloatAxioms.eqb_spec. unfold SFeqb, toFixed0.
  destruct (Prim2SF x) as [sx|sx| |sx mx ex] eqn:Hx,
           (Prim2SF y) as [sy|sy| |sy my ey] eqn:Hy; cbn; try done;
    try (destruct sx, sy; done).
  intros Hc.
  assert (sx = sy ∧ mx = my ∧ ex = ey) as (-> & -> & ->).
  { destruct sx, sy; try done; destruct (ex ?= ey) eqn:He; try done;
      apply Z.compare_eq in He as ->.
    - destruct (Pos.compare_cont Eq mx my) eqn:Hm; try done.
      by apply Pcompare_Eq_eq in Hm as ->.
    - destruct (Pos.compare_cont Eq mx my) eqn:Hm; try done.
      by apply Pcompare_Eq_eq in Hm as ->. }
  assert (x = y) as -> by (apply FloatAxioms.Prim2SF_inj; congruence).
  done.
Qed.

(** C7: an expiration given as a number of epoch seconds and one given as
    a [Date] whose [getTime() / 1000] equals that number (as the same value,
    or under [===]) give the same apns-expiration header, each the
    [toFixed(0)] rendering of its number of seconds. *)
Theorem C7_expiration_number_and_Date
    (me1 me2 : ApnsClient) (token1 token2 : string) (n1 n2 : Notification)
    (secs : float) (d : Date) :
  expiration (options n1) = Some (Expiration_number secs) →
  expiration (options n2) = Some (Expiration_Date d) →
  (getTime d / 1000)%float = secs ∨ (getTime d / 1000 =? secs)%float = true →
  headers (init (buildRequest me1 token1 n1)) !! "apns-expiration"
  = Some (toFixed0 secs) ∧
  headers (init (buildRequest me2 token2 n2)) !! "apns-expiration"
  = Some (toFixed0 (getTime d / 1000)%float) ∧
  headers (init (buildRequest me1 token1 n1)) !! "apns-expiration"
  = headers (init (buildRequest me2 token2 n2)) !! "apns-expiration".
Proof.
  intros H1 H2 Heq. cbn [buildRequest init headers].
  rewrite !buildHeaders_expiration, H1, H2. cbn.
  assert (toFixed0 (getTime d / 1000)%float = toFixed0 secs) as Hs.
  { destruct Heq as [->|Heq]; [done|by apply toFixed0_strict_equal]. }
  by rewrite Hs.
Qed.

End Request_headers.

Lemma C6_priority_header_witness :
  let P := demo_platform in
  let me := constructor {| opt_team := "TEAM"; opt_signingKey := "KEY";
                           opt_keyId := "KID"; opt_defaultTopic := None;
                           opt_host := None; opt_requestTimeout := None;
                           opt_keepAlive := None |} in
  let n p := {| deviceToken := "00ff"; pushType := "alert"; priority := p;
                options := {| topic := None; expiration := None; collapseId := None |};
                apnsOptionsJson := "{}" |} in
  headers (init (buildRequest me "t" (n 10))) !! "apns-priority" = None ∧
  headers (init (buildRequest me "t" (n 5))) !! "apns-priority" = Some "5".
Proof.
  intros P me n. split.
  - apply (proj1 (C6_priority_header me "t" (n 10))). reflexivity.
  - apply (proj2 (C6_priority_header me "t" (n 5))). vm_compute. discriminate.
Defined.

Lemma C7_expiration_number_and_Date_witness :
  let P := demo_platform in
  let n1 := demo_notification None (Some (Expiration_number 1700000000%float)) in
  let n2 := demo_notification None
              (Some (Expiration_Date (Date_of_ms 1700000000000))) in
  headers (init (buildRequest demo_client "t" n1)) !! "apns-expiration"
  = Some "1700000000" ∧
  headers (init (buildRequest demo_client "t" n1)) !! "apns-expiration"
  = headers (init (buildRequest demo_client "t" n2)) !! "apns-expiration".
Proof.
  intros P n1 n2.
  destruct (C7_expiration_number_and_Date demo_client demo_client "t" "t" n1 n2
              1700000000%float (Date_of_ms 1700000000000))
    as (H1 & _ & H3).
  - reflexivity.
  - reflexivity.
  - left. vm_compute. reflexivity.
  - split; [rewrite H1; vm_compute; reflexivity | exact H3].
Defined.


(** ** The construction options *)

(** C10: two sets of options that differ only in [requestTimeout] build
    the same client, so that every [send] reads the clock, calls the
    signer and calls [fetch] with the same request, and ends in the same
    way: the option is never read. *)
Theorem C10_requestTimeout_ignored `{Platform}
    (t sk ki : string) (dt h : option string) (ka : option bool)
    (timeout1 timeout2 : option Z)
    (net : Request -> FetchOutcome) (n : Notification)
    (k : nat) (tr : list Event) :
  let options1 := {| opt_team := t; opt_signingKey := sk; opt_keyId := ki;
                     opt_defaultTopic := dt; opt_host := h;
                     opt_requestTimeout := timeout1; opt_keepAlive := ka |} in
  let options2 := {| opt_team := t; opt_signingKey := sk; opt_keyId := ki;
                     opt_defaultTopic := dt; opt_host := h;
                     opt_requestTimeout := timeout2; opt_keepAlive := ka |} in
  constructor options1 = constructor options2 ∧
  send_request n (fresh_world (constructor options1) k tr)
  = send_request n (fresh_world (constructor options2) k tr) ∧
  send net n (fresh_world (constructor options1) k tr)
  = send net n (fresh_world (constructor options2) k tr).
Proof.
  intros options1 options2.
  assert (constructor options1 = constructor options2) as Hsame by reflexivity.
  by rewrite Hsame.
Qed.

(** ** The theorems at concrete inputs *)

Lemma C1_getSigningToken_witness :
  let P := demo_platform in
  (* minted one second ago: reused *)
  (_getSigningToken (demo_world_with_token 1000)).1 = Normal "cached" ∧
  sign_calls (trace (_getSigningToken (demo_world_with_token 1000)).2) = [] ∧
  (* minted 55 minutes ago: signed again *)
  (_getSigningToken (demo_world_with_token 3300000)).1
  = Normal "jwt:TEAM:1700000001:KID" ∧
  _token (this (_getSigningToken (demo_world_with_token 3300000)).2)
  = Some {| value := "jwt:TEAM:1700000001:KID"; timestamp := 1700000002000 |}.
Proof.
  intros P.
  destruct (C1_getSigningToken (demo_world_with_token 1000)) as [Hreuse _].
  destruct (C1_getSigningToken (demo_world_with_token 3300000)) as [_ Hsign].
  specialize (Hreuse _ eq_refl).
  rewrite Hreuse by (vm_compute; reflexivity).
  destruct (Hsign 1%nat) as [_ Hstored].
  { right. eexists. split; [reflexivity|]. split; [|reflexivity].
    vm_compute. discriminate. }
  rewrite (Hstored "jwt:TEAM:1700000001:KID") by (vm_compute; reflexivity).
  repeat split; vm_compute; reflexivity.
Defined.

Lemma C2_expired_provider_token_witness :
  let P := demo_platform in
  let w := demo_world_with_token 1000 in
  let n := demo_notification None None in
  let expired := demo_response 403 (Some (demo_body "ExpiredProviderToken")) in
  let other := demo_response 400 (Some (demo_body "BadDeviceToken")) in
  _token (this (_handleServerResponse expired n w).2) = None ∧
  sign_calls (trace (_getSigningToken (_handleServerResponse expired n w).2).2)
  = [({| key := "KEY"; algorithm := "ES256"; kid := "KID" |},
      {| iss := "TEAM"; iat := 1700000000 |})] ∧
  this (_handleServerResponse other n w).2 = this w.
Proof.
  intros P w n expired other.
  destruct (C2_expired_provider_token expired n w) as [Hreset _];
    [vm_compute; discriminate|].
  destruct (C2_expired_provider_token other n w) as [_ Hkept];
    [vm_compute; discriminate|].
  destruct Hreset as [Hnone Hsigned]; [vm_compute; reflexivity|].
  split; [exact Hnone|]. split.
  - rewrite Hsigned. vm_compute. reflexivity.
  - apply Hkept. vm_compute. discriminate.
Defined.

Lemma C3_classification_witness :
  let P := demo_platform in
  let w := demo_world_with_token 1000 in
  let n := demo_notification None None in
  _handleServerResponse (demo_response 200 None) n w = (Normal n, w) ∧
  ∃ e, (_handleServerResponse
          (demo_response 400 (Some (demo_body "BadDeviceToken"))) n w).1
       = Throw (Thrown_ApnsError e) ∧
       statusCode e = 400 ∧ ApnsError_reason e = "BadDeviceToken" ∧
       notification e = n.
Proof.
  intros P w n. split.
  - apply (C3_classification (demo_response 200 None) n w). reflexivity.
  - destruct (C3_classification
                (demo_response 400 (Some (demo_body "BadDeviceToken"))) n w)
      as [_ Hrej].
    destruct (Hrej (demo_body "BadDeviceToken")) as (e & He & Hst & Hr & _ & Hn);
      [vm_compute; discriminate|reflexivity|].
    exists e. by repeat split.
Defined.

Lemma C5_unparseable_body_witness :
  let P := demo_platform in
  let n := demo_notification None None in
  (_handleServerResponse (demo_response 502 None) n (demo_world_with_token 1000)).1
  = Throw (Thrown_ApnsError
             {| statusCode := 502; notification := n;
                response := {| reason := "Unknown error";
                               body_timestamp := Some 1700000000000 |} |}).
Proof.
  intros P n.
  rewrite (C5_unparseable_body (demo_response 502 None) n
             (demo_world_with_token 1000));
    [reflexivity|vm_compute; discriminate|reflexivity].
Defined.


Lemma C10_requestTimeout_ignored_witness :
  let P := demo_platform in
  let options timeout :=
    {| opt_team := "TEAM"; opt_signingKey := "KEY"; opt_keyId := "KID";
       opt_defaultTopic := None; opt_host := None;
       opt_requestTimeout := timeout; opt_keepAlive := None |} in
  let n := demo_notification (Some "com.a") None in
  send (demo_net 0) n (fresh_world (constructor (options None)) 0 [])
  = send (demo_net 0) n (fresh_world (constructor (options (Some 5000))) 0 []).
Proof.
  intros P options n.
  apply (C10_requestTimeout_ignored "TEAM" "KEY" "KID" None None None
           None (Some 5000) (demo_net 0) n 0 []).
Defined.

(** ** The whole of [send] *)

Section Send.
Context `{Platform}.

(** The three ways [_getSigningToken] ends: the cached token, a new token
    signed and stored, or the error of the signer with the cache as it
    was.  [k] is the clock reading the claims are built from. *)
Lemma getSigningToken_cases (w : World) :
  let me := this w in
  (∃ t, _token me = Some t ∧
        clock (reads w) - timestamp t < RESET_TOKEN_INTERVAL_MS ∧
        _getSigningToken w
        = (Normal (value t),
           {| this := me; reads := S (reads w); trace := trace w |})) ∨
  (∃ k, ((_token me = None ∧ k = reads w) ∨
         (∃ t, _token me = Some t ∧
               RESET_TOKEN_INTERVAL_MS ≤ clock (reads w) - timestamp t ∧
               k = S (reads w))) ∧
        let o := {| key := signingKey me; algorithm := "ES256"; kid := keyId me |} in
        let claims := {| iss := team me; iat := clock k `div` 1000 |} in
        match createSigner o claims with
        | Normal token =>
            _getSigningToken w
            = (Normal token,
               {| this := with_token me
                            (Some {| value := token; timestamp := clock (S k) |});
                  reads := S (S k);
                  trace := trace w ++ [Ev_sign o claims] |})
        | Throw t =>
            _getSigningToken w
            = (Throw t,
               {| this := me; reads := S k;
                  trace := trace w ++ [Ev_sign o claims] |})
        end).
Proof.
  destruct w as [me k0 tr]; cbn [this reads trace].
  destruct (_token me) as [t|] eqn:Ht.
  - destruct (decide (clock k0 - timestamp t < RESET_TOKEN_INTERVAL_MS))
      as [Hage|Hage].
    + left. exists t. split; [done|]. split; [done|].
      unfold _getSigningToken, bind, get_this, Date_now, ret; cbn.
      rewrite Ht; cbn. by rewrite bool_decide_eq_true_2.
    + right. exists (S k0). split; [right; exists t; split; [done|split; [lia|done]]|].
      unfold _getSigningToken, bind, get_this, Date_now, ret, sign, log,
        set_token, throw, SIGNING_ALGORITHM; cbn.
      rewrite Ht; cbn. rewrite bool_decide_eq_false_2 by done. cbn.
      by destruct (createSigner _ _).
  - right. exists k0. split; [by left|].
    unfold _getSigningToken, bind, get_this, Date_now, ret, sign, log,
      set_token, throw, SIGNING_ALGORITHM; cbn.
    rewrite Ht; cbn. by destruct (createSigner _ _).
Qed.

(** [send_request] is the acquisition of the token followed by the call
    of [fetch] with the request built from it. *)
Lemma send_request_unfold (n : Notification) (w : World) :
  send_request n w
  = match _getSigningToken w with
    | (Normal token, w1) =>
        (Normal (buildRequest (this w1) token n),
         {| this := this w1; reads := reads w1;
            trace := trace w1 ++ [Ev_fetch (buildRequest (this w1) token n)] |})
    | (Throw t, w1) => (Throw t, w1)
    end.
Proof.
  unfold send_request, bind. by destruct (_getSigningToken w) as [[token|t] w1].
Qed.


(** X3: the apns-expiration header is there exactly when
    [options.expiration] is defined, whatever its value: the number 0 gives
    "0", and NaN or an invalid [Date] gives "NaN". *)
Theorem buildHeaders_expiration_defined (me : ApnsClient) (token : string)
    (n : Notification) :
  (is_Some (buildHeaders me token n !! "apns-expiration")
   ↔ is_Some (expiration (options n))) ∧
  (expiration (options n) = Some (Expiration_number 0%float) →
   buildHeaders me token n !! "apns-expiration" = Some "0") ∧
  (expiration (options n) = Some (Expiration_number PrimFloat.nan) →
   buildHeaders me token n !! "apns-expiration" = Some "NaN") ∧
  (∀ d, expiration (options n) = Some (Expiration_Date d) →
        getTime d = PrimFloat.nan →
        buildHeaders me token n !! "apns-expiration" = Some "NaN").
Proof.
  rewrite buildHeaders_expiration. split; [|split; [|split]].
  - by rewrite fmap_is_Some.
  - by intros ->.
  - by intros ->.
  - intros d -> Hd. cbn. by rewrite Hd.
Qed.

Lemma send_unfold (net : Request -> FetchOutcome) (n : Notification) (w : World) :
  send net n w
  = match send_request n w with
    | (Normal req, w1) =>
        match net req with
        | Responded res => _handleServerResponse res n w1
        | NetworkError t => (Throw t, w1)
        end
    | (Throw t, w1) => (Throw t, w1)
    end.
Proof.
  unfold send, bind. destruct (send_request n w) as [[req|t] w1]; [|done].
  by destruct (net req).
Qed.

Lemma fetches_app (tr1 tr2 : list Event) :
  fetches (tr1 ++ tr2) = fetches tr1 ++ fetches tr2.
Proof. apply omap_app. Qed.

Lemma sign_calls_app (tr1 tr2 : list Event) :
  sign_calls (tr1 ++ tr2) = sign_calls tr1 ++ sign_calls tr2.
Proof. apply omap_app. Qed.

(** What the synchronous part of [send] leaves behind: it emits nothing
    and changes the client in its token only; when it throws, the client is
    as before and [fetch] has not been called. *)
Lemma send_request_effects (n : Notification) (w : World) :
  let out := send_request n w in
  emissions (trace out.2) = emissions (trace w) ∧
  config_of (this out.2) = config_of (this w) ∧
  match out.1 with
  | Normal req =>
      fetches (trace out.2) = fetches (trace w) ++ [req] ∧
      is_Some (_token (this out.2))
  | Throw _ =>
      this out.2 = this w ∧ fetches (trace out.2) = fetches (trace w)
  end.
Proof.
  cbv zeta. rewrite send_request_unfold.
  destruct (getSigningToken_cases w) as [(t & Ht & _ & Hrun)|(k & _ & Hrun)].
  - rewrite Hrun; cbn [fst snd this trace].
    rewrite emissions_app, fetches_app, Ht, app_nil_r. by eauto.
  - cbv zeta in Hrun. destruct (createSigner _ _) as [token|t];
      rewrite Hrun; cbn [fst snd this trace].
    + rewrite !emissions_app, !fetches_app, !app_nil_r. by eauto.
    + rewrite emissions_app, fetches_app, !app_nil_r. by eauto.
Qed.


(** X6: when the acquisition of the token throws, [send] throws the same
    error; [fetch] is not called, nothing is emitted and the client is as
    it was, a stale token included. *)
Theorem send_signer_failure (net : Request -> FetchOutcome) (n : Notification)
    (w : World) (t : Thrown) :
  (_getSigningToken w).1 = Throw t →
  (send net n w).1 = Throw t ∧
  this (send net n w).2 = this w ∧
  fetches (trace (send net n w).2) = fetches (trace w) ∧
  emissions (trace (send net n w).2) = emissions (trace w).
Proof.
  intros Hthrow. rewrite send_unfold.
  pose proof (send_request_effects n w) as (Hem & _ & Hout).
  rewrite send_request_unfold in *.
  destruct (_getSigningToken w) as [[token|t'] w1]; cbn [fst] in Hthrow; [done|].
  injection Hthrow as ->. cbn [fst snd] in *. by destruct Hout.
Qed.



End Send.

(** ** The whole of [sendMany] *)

Section Batch_effects.
Context `{Platform}.
Variable net : nat -> Request -> FetchOutcome.

Lemma emit_trace_quiet (c : ApnsClient) (name : string) (e : ApnsError) :
  sign_calls (emit_trace c name e) = [] ∧ fetches (emit_trace c name e) = [].
Proof.
  unfold emit_trace, sign_calls, fetches; cbn.
  induction (listeners c name) as [|l ls [IH1 IH2]]; by cbn.
Qed.

(** Handling a response signs nothing and fetches nothing, keeps the
    configuration, and never puts a token into an empty cache. *)
Lemma handleServerResponse_effects (res : Response) (n : Notification) (w : World) :
  let out := _handleServerResponse res n w in
  sign_calls (trace out.2) = sign_calls (trace w) ∧
  fetches (trace out.2) = fetches (trace w) ∧
  config_of (this out.2) = config_of (this w) ∧
  (_token (this w) = None → _token (this out.2) = None).
Proof.
  cbv zeta. destruct (decide (status res = 200)) as [Hst|Hst].
  - unfold _handleServerResponse. by rewrite bool_decide_eq_true_2.
  - rewrite handleServerResponse_rejected by done. cbn [snd this trace].
    set (me' := if bool_decide _ then _ else _).
    assert (sign_calls (if emit_throws me' (ApnsError_reason
                              (classified_error res n (reads w)))
                        then [] else emit_trace me' Errors_error
                              (classified_error res n (reads w))) = [] ∧
            fetches (if emit_throws me' (ApnsError_reason
                              (classified_error res n (reads w)))
                     then [] else emit_trace me' Errors_error
                              (classified_error res n (reads w))) = [])
      as [Hs Hf].
    { destruct (emit_throws _ _); [done|apply emit_trace_quiet]. }
    rewrite !sign_calls_app, !fetches_app, Hs, Hf.
    rewrite (proj1 (emit_trace_quiet _ _ _)), (proj2 (emit_trace_quiet _ _ _)).
    rewrite !app_nil_r. subst me'. by case_bool_decide.
Qed.

Lemma finish_send_effects (i : nat) (p : InFlight) (w : World) :
  let out := finish_send net i p w in
  sign_calls (trace out.2) = sign_calls (trace w) ∧
  fetches (trace out.2) = fetches (trace w) ∧
  config_of (this out.2) = config_of (this w) ∧
  (_token (this w) = None → _token (this out.2) = None).
Proof.
  cbv zeta. destruct p as [n req|t]; cbn; [|done].
  destruct (net i req) as [res|t]; [|done].
  pose proof (handleServerResponse_effects res n w) as Heff. cbv zeta in Heff.
  by destruct (_handleServerResponse res n w).
Qed.

(** The completions of a batch sign nothing and fetch nothing, keep the
    configuration, and leave an empty cache empty. *)
Lemma settle_in_order_effects (flights : list InFlight) (order : list nat) :
  ∀ (promises : list (Promise SendManyResult)) (w : World),
    let out := settle_in_order net flights order promises w in
    sign_calls (trace out.2) = sign_calls (trace w) ∧
    fetches (trace out.2) = fetches (trace w) ∧
    config_of (this out.2) = config_of (this w) ∧
    (_token (this w) = None → _token (this out.2) = None).
Proof.
  induction order as [|i order IH]; intros promises w; cbv zeta; [done|].
  cbn [settle_in_order].
  destruct (flights !! i) as [p|]; [|apply IH].
  destruct (promises !! i) as [[c|]|]; try apply IH.
  unfold bind.
  pose proof (finish_send_effects i p w) as (Hs & Hf & Hc & Ht).
  destruct (finish_send_settles net i p w) as (c & r & w1 & Hfin & _ & _).
  rewrite Hfin in *. cbn [snd] in *.
  destruct (IH (<[i:=Some (catch_error c)]> promises) w1) as (Hs' & Hf' & Hc' & Ht').
  rewrite Hs', Hf', Hc'. repeat split; try done. auto.
Qed.

Lemma settle_in_order_nil (order : list nat)
    (promises : list (Promise SendManyResult)) (w : World) :
  settle_in_order net [] order promises w = (Normal promises, w).
Proof. induction order as [|i order IH]; [done|by cbn]. Qed.

(** X10: an empty batch resolves to the empty array and touches nothing:
    no clock reading, no signer call, no request. *)
Theorem sendMany_nil (order : list nat) (w : World) :
  sendMany net order [] w = (Normal (Some (Normal [])), w).
Proof.
  unfold sendMany, bind. cbn [start_all length replicate]. unfold ret at 1.
  by rewrite settle_in_order_nil.
Qed.




End Batch_effects.

(** ** The warnings of the process *)

Section Warnings.
Variable wn : Warning.

Lemma others_app (l1 l2 : list WarningListener) :
  others (l1 ++ l2) = others l1 ++ others l2.
Proof. apply omap_app. Qed.

Lemma handlers_app (l1 l2 : list WarningListener) :
  handlers (l1 ++ l2) = handlers l1 ++ handlers l2.
Proof. apply omap_app. Qed.

Lemma elem_of_handlers (id : nat) (ls : list WarningListener) :
  id ∈ handlers ls ↔ SupressH2_once id ∈ ls.
Proof.
  unfold handlers. rewrite list_elem_of_omap. split.
  - intros (l & Hl & Hid). by destruct l; simplify_eq.
  - intros Hl. by exists (SupressH2_once id).
Qed.

(** Without handlers a table holds other listeners only. *)
Lemma no_handlers_others (ls : list WarningListener) :
  handlers ls = [] → ls = Other_listener <$> others ls.
Proof.
  induction ls as [|[id|id] ls IH]; cbn; [done| |done].
  intros Hh. f_equal. by apply IH.
Qed.

Lemma filter_not_handler (id : nat) (ls : list WarningListener) :
  id ∉ handlers ls → filter (λ l, l ≠ SupressH2_once id) ls = ls.
Proof.
  intros Hid. induction ls as [|l ls IH]; [done|].
  rewrite filter_cons_True.
  - f_equal. apply IH. intros Hin. apply Hid.
    apply elem_of_handlers. right. by apply elem_of_handlers.
  - intros ->. apply Hid. apply elem_of_handlers. by left.
Qed.

(** The table splits at its first handler. *)
Lemma split_first_handler (ls : list WarningListener) (h : nat) (hs : list nat) :
  handlers ls = h :: hs →
  ∃ pre post, ls = pre ++ SupressH2_once h :: post ∧
              handlers pre = [] ∧ handlers post = hs.
Proof.
  induction ls as [|[id|id] ls IH]; cbn; [done| |].
  - intros Hh. destruct (IH Hh) as (pre & post & -> & Hpre & Hpost).
    by exists (Other_listener id :: pre), post.
  - intros [= -> <-]. by exists [], ls.
Qed.

Lemma call_in_turn_app (emit : Warning -> Process -> option Process)
    (l1 l2 : list WarningListener) (p : Process) :
  call_in_turn emit wn (l1 ++ l2) p
  = match call_in_turn emit wn l1 p with
    | Some p' => call_in_turn emit wn l2 p'
    | None => None
    end.
Proof.
  revert p. induction l1 as [|l l1 IH]; intros p; cbn; [done|].
  by destruct (invoke emit wn l p).
Qed.

(** Once no handler is registered, a snapshot only reaches the other
    listeners in it: the wrappers left in it have fired. *)
Lemma call_in_turn_fired (emit : Warning -> Process -> option Process)
    (snapshot : list WarningListener) (p : Process) :
  handlers (warning_listeners p) = [] →
  call_in_turn emit wn snapshot p
  = Some (seen_more p (map (λ id, (id, wn)) (others snapshot))).
Proof.
  revert p. induction snapshot as [|[id|id] rest IH]; intros [ls m seen] Hclean;
    cbn [call_in_turn invoke others omap].
  - unfold seen_more; cbn. by rewrite app_nil_r.
  - rewrite IH by done. unfold seen_more, deliver; cbn.
    by rewrite <- app_assoc.
  - cbn [warning_listeners] in *. rewrite bool_decide_eq_false_2.
    + by rewrite IH.
    + rewrite <- elem_of_handlers, Hclean. apply not_elem_of_nil.
Qed.

(** A snapshot without wrappers reaches each of its listeners once. *)
Lemma call_in_turn_others (emit : Warning -> Process -> option Process)
    (snapshot : list WarningListener) (p : Process) :
  handlers snapshot = [] →
  call_in_turn emit wn snapshot p
  = Some (seen_more p (map (λ id, (id, wn)) (others snapshot))).
Proof.
  revert p. induction snapshot as [|[id|id] rest IH]; intros [ls m seen] Hnone;
    cbn [call_in_turn invoke others omap]; [|cbn in Hnone|done].
  - unfold seen_more; cbn. by rewrite app_nil_r.
  - rewrite IH by done. unfold seen_more, deliver; cbn.
    by rewrite <- app_assoc.
Qed.

Lemma others_fmap_other (ids : list nat) :
  others (Other_listener <$> ids) = ids.
Proof.
  unfold others. induction ids as [|id ids IH]; [done|].
  cbn in *. by rewrite IH.
Qed.

Lemma handlers_fmap_other (ids : list nat) :
  handlers (Other_listener <$> ids) = [].
Proof. induction ids as [|id ids IH]; [done|by cbn]. Qed.

Lemma unregister_at (cur rest : list WarningListener) (h : nat) :
  handlers cur = [] → h ∉ handlers rest →
  filter (λ l, l ≠ SupressH2_once h) (cur ++ SupressH2_once h :: rest)
  = cur ++ rest.
Proof.
  intros Hcur Hrest. rewrite filter_app, filter_cons_False by (by intros []).
  rewrite !filter_not_handler; [done|done|].
  rewrite Hcur. apply not_elem_of_nil.
Qed.

(** The warning UNDICI-H2: every wrapper of the snapshot removes itself and
    returns, every other listener is called once. *)
Lemma call_in_turn_undici_h2 (emit : Warning -> Process -> option Process)
    (rest : list WarningListener) :
  warning_code wn = Some "UNDICI-H2" →
  NoDup (handlers rest) →
  ∀ (cur : list WarningListener) (m : nat) (seen : list (nat * Warning)),
    handlers cur = [] →
    call_in_turn emit wn rest
      {| warning_listeners := cur ++ rest; handlers_made := m;
         warnings_seen := seen |}
    = Some {| warning_listeners := cur ++ (Other_listener <$> others rest);
              handlers_made := m;
              warnings_seen := seen ++ map (λ id, (id, wn)) (others rest) |}.
Proof.
  intros Hcode. induction rest as [|[id|h] rest IH]; intros Hnd cur m seen Hcur;
    cbn [call_in_turn invoke others handlers omap fmap list_fmap].
  - cbn. by rewrite !app_nil_r.
  - unfold deliver; cbn [warning_listeners handlers_made warnings_seen].
    rewrite (cons_middle _ cur rest), app_assoc.
    rewrite IH; [|done|by rewrite handlers_app, Hcur].
    cbn. by rewrite <- !app_assoc.
  - cbn in Hnd. apply NoDup_cons in Hnd as [Hh Hnd].
    cbn [warning_listeners]. rewrite bool_decide_eq_true_2
      by (apply elem_of_app; right; left).
    rewrite bool_decide_eq_true_2 by done.
    unfold unregister; cbn [warning_listeners handlers_made warnings_seen].
    rewrite unregister_at by done. by apply IH.
Qed.

(** Any other warning: each handler still registered emits it again, so
    that with [k] handlers the other listeners are called [k + 1] times
    each; [fuel] beyond [k] is enough. *)
Lemma emit_warning_reemits :
  warning_code wn ≠ Some "UNDICI-H2" →
  ∀ (k fuel : nat) (p : Process),
    length (handlers (warning_listeners p)) = k →
    NoDup (handlers (warning_listeners p)) →
    (k < fuel)%nat →
    ∃ seen,
      emit_warning fuel wn p
      = Some {| warning_listeners := Other_listener <$> others (warning_listeners p);
                handlers_made := handlers_made p;
                warnings_seen := warnings_seen p ++ seen |} ∧
      seen ≡ₚ rounds (S k) wn (warning_listeners p).
Proof.
  intros Hcode. induction k as [|k IH]; intros fuel [ls m seen0] Hk Hnd Hfuel;
    cbn [warning_listeners handlers_made warnings_seen] in *;
    (destruct fuel as [|fuel]; [lia|]); cbn [emit_warning warning_listeners].
  - apply nil_length_inv in Hk.
    rewrite call_in_turn_others by done.
    exists (map (λ id, (id, wn)) (others ls)). split.
    + unfold seen_more; cbn. by rewrite <- no_handlers_others.
    + unfold rounds; cbn. by rewrite app_nil_r.
  - destruct (handlers ls) as [|h hs] eqn:Hh; [done|].
    destruct (split_first_handler ls h hs Hh) as (pre & post & -> & Hpre & Hpost).
    apply NoDup_cons in Hnd as [Hfresh Hnd]. injection Hk as Hk.
    rewrite call_in_turn_app, call_in_turn_others by done.
    cbn [call_in_turn invoke]. unfold seen_more at 1.
    cbn [warning_listeners handlers_made warnings_seen].
    rewrite bool_decide_eq_true_2 by (apply elem_of_app; right; left).
    rewrite bool_decide_eq_false_2 by done.
    unfold unregister, seen_more;
      cbn [warning_listeners handlers_made warnings_seen].
    rewrite unregister_at by (by rewrite ?Hpost).
    destruct (IH fuel {| warning_listeners := pre ++ post; handlers_made := m;
                         warnings_seen := seen0 ++ map (λ id, (id, wn)) (others pre) |})
      as (seen' & -> & Hseen');
      cbn [warning_listeners handlers_made warnings_seen].
    { by rewrite handlers_app, Hpre, Hpost. }
    { by rewrite handlers_app, Hpre, Hpost. }
    { lia. }
    rewrite call_in_turn_fired
      by (cbn [warning_listeners]; apply handlers_fmap_other).
    unfold seen_more; cbn [warning_listeners handlers_made warnings_seen].
    assert (others (pre ++ SupressH2_once h :: post) = others (pre ++ post))
      as Hsame by (by rewrite !others_app).
    eexists. split.
    + rewrite Hsame, <- !app_assoc. reflexivity.
    + rewrite Hseen'. cbn [warning_listeners].
      change (rounds (S (S k)) wn (pre ++ SupressH2_once h :: post))
        with (map (λ id, (id, wn)) (others (pre ++ SupressH2_once h :: post))
              ++ mjoin (replicate (S k)
                   (map (λ id, (id, wn))
                      (others (pre ++ SupressH2_once h :: post))))).
      rewrite Hsame. fold (rounds (S k) wn (pre ++ post)).
      rewrite others_app, map_app, <- app_assoc.
      apply Permutation_app_head, Permutation_app_comm.
Qed.

Lemma handlers_length (ls : list WarningListener) :
  (length (handlers ls) ≤ length ls)%nat.
Proof.
  unfold handlers. induction ls as [|[id|id] ls IH]; cbn in *; lia.
Qed.

(** X14: the handler of [_supressH2Warning] keeps the warning UNDICI-H2
    from no listener.  When it is the first warning of the process, every
    other listener is called with it once, in the order of registration;
    the one-shot handlers have all removed themselves. *)
Theorem first_warning_undici_h2 (p : Process) :
  handlers_distinct p →
  warning_code wn = Some "UNDICI-H2" →
  process_emit_warning wn p
  = Some {| warning_listeners := Other_listener <$> others (warning_listeners p);
            handlers_made := handlers_made p;
            warnings_seen := warnings_seen p
                             ++ map (λ id, (id, wn)) (others (warning_listeners p)) |}.
Proof.
  intros [Hnd _] Hcode. destruct p as [ls m seen].
  unfold process_emit_warning. cbn [emit_warning warning_listeners
    handlers_made warnings_seen] in *.
  by apply (call_in_turn_undici_h2 _ ls Hcode Hnd []).
Qed.

(** X15: a first warning with any other code is emitted again by every
    one-shot handler: with [k] clients constructed, each other listener is
    called with that warning [k + 1] times instead of once.  The emission
    ends, and the handlers have all removed themselves. *)
Theorem first_warning_reemitted (p : Process) :
  handlers_distinct p →
  warning_code wn ≠ Some "UNDICI-H2" →
  ∃ seen,
    process_emit_warning wn p
    = Some {| warning_listeners := Other_listener <$> others (warning_listeners p);
              handlers_made := handlers_made p;
              warnings_seen := warnings_seen p ++ seen |} ∧
    seen ≡ₚ rounds (S (length (handlers (warning_listeners p)))) wn
              (warning_listeners p).
Proof.
  intros [Hnd _] Hcode. unfold process_emit_warning.
  apply emit_warning_reemits; [done|done|done|].
  pose proof (handlers_length (warning_listeners p)). lia.
Qed.

End Warnings.

(** X16: the handlers act on the first warning only.  Whatever that
    warning was, the next one, UNDICI-H2 or not, reaches every other
    listener exactly once. *)
Theorem later_warnings_untouched (p p1 : Process) (wn wn2 : Warning) :
  handlers_distinct p →
  process_emit_warning wn p = Some p1 →
  others (warning_listeners p1) = others (warning_listeners p) ∧
  handlers (warning_listeners p1) = [] ∧
  process_emit_warning wn2 p1
  = Some (seen_more p1 (map (λ id, (id, wn2)) (others (warning_listeners p)))).
Proof.
  intros Hd Hfirst.
  assert (warning_listeners p1 = Other_listener <$> others (warning_listeners p))
    as Hls.
  { destruct Hd as [Hnd _]. unfold process_emit_warning in Hfirst.
    destruct (decide (warning_code wn = Some "UNDICI-H2")) as [Hcode|Hcode].
    - destruct p as [ls m seen]. cbn [emit_warning warning_listeners] in *.
      rewrite (call_in_turn_undici_h2 wn _ ls Hcode Hnd [] m seen eq_refl) in Hfirst.
      by injection Hfirst as <-.
    - destruct (emit_warning_reemits wn Hcode _ (S (length (warning_listeners p)))
                  p eq_refl Hnd) as (seen & Hrun & _).
      { pose proof (handlers_length (warning_listeners p)). lia. }
      rewrite Hrun in Hfirst. by injection Hfirst as <-. }
  assert (others (warning_listeners p1) = others (warning_listeners p)) as Hothers.
  { rewrite Hls. apply others_fmap_other. }
  assert (handlers (warning_listeners p1) = []) as Hnone
    by (rewrite Hls; apply handlers_fmap_other).
  split; [done|]. split; [done|].
  unfold process_emit_warning. cbn [emit_warning].
  rewrite call_in_turn_others by done. by rewrite Hothers.
Qed.

(** Constructing a client keeps the one-shot handlers distinct. *)
Lemma supressH2Warning_distinct (p : Process) :
  handlers_distinct p → handlers_distinct (_supressH2Warning p).
Proof.
  intros [Hnd Hlt]. unfold handlers_distinct, _supressH2Warning.
  cbn [warning_listeners handlers_made]. rewrite handlers_app. cbn. split.
  - apply NoDup_app. split; [done|]. split; [|apply NoDup_singleton].
    intros id Hid ->%list_elem_of_singleton.
    rewrite Forall_forall in Hlt. specialize (Hlt _ Hid). lia.
  - apply Forall_app. split; [|by repeat constructor].
    eapply Forall_impl; [exact Hlt|]. intros id Hid. cbn in *. lia.
Qed.

(** Registering another listener does not touch the handlers. *)
Lemma process_on_warning_distinct (id : nat) (p : Process) :
  handlers_distinct p → handlers_distinct (process_on_warning id p).
Proof.
  unfold handlers_distinct, process_on_warning.
  cbn [warning_listeners handlers_made]. rewrite handlers_app. cbn.
  by rewrite app_nil_r.
Qed.

(** ** The further theorems at concrete inputs *)


Lemma buildHeaders_expiration_defined_witness :
  let P := demo_platform in
  buildHeaders demo_client "t"
    (demo_notification None (Some (Expiration_number 0%float)))
    !! "apns-expiration" = Some "0" ∧
  buildHeaders demo_client "t"
    (demo_notification None (Some (Expiration_Date Invalid_Date)))
    !! "apns-expiration" = Some "NaN".
Proof.
  intros P. split.
  - apply (buildHeaders_expiration_defined demo_client "t"
             (demo_notification None (Some (Expiration_number 0%float)))).
    reflexivity.
  - apply (buildHeaders_expiration_defined demo_client "t"
             (demo_notification None (Some (Expiration_Date Invalid_Date)))
             ) with (d := Invalid_Date); reflexivity.
Defined.


Lemma send_signer_failure_witness :
  let P := demo_platform in
  let w := fresh_world demo_client_bad_key 0 [] in
  let n := demo_notification None None in
  (send (demo_net 0) n w).1 = Throw (Thrown_Error "invalid key") ∧
  fetches (trace (send (demo_net 0) n w).2) = [].
Proof.
  intros P w n.
  destruct (send_signer_failure (demo_net 0) n w (Thrown_Error "invalid key"))
    as (Hthrow & _ & Hfetch & _); [vm_compute; reflexivity|].
  split; [exact Hthrow|]. rewrite Hfetch. reflexivity.
Defined.




Lemma handlers_distinct_demo : handlers_distinct demo_process.
Proof.
  unfold demo_process.
  apply supressH2Warning_distinct, process_on_warning_distinct,
    supressH2Warning_distinct, process_on_warning_distinct.
  split; constructor.
Qed.

Lemma first_warning_undici_h2_witness :
  process_emit_warning (demo_warning (Some "UNDICI-H2")) demo_process
  = Some {| warning_listeners := [Other_listener 7; Other_listener 8];
            handlers_made := 2;
            warnings_seen := [(7%nat, demo_warning (Some "UNDICI-H2"));
                              (8%nat, demo_warning (Some "UNDICI-H2"))] |}.
Proof.
  rewrite (first_warning_undici_h2 (demo_warning (Some "UNDICI-H2")) demo_process);
    [reflexivity|exact handlers_distinct_demo|reflexivity].
Defined.

Lemma first_warning_reemitted_witness :
  ∃ p', process_emit_warning (demo_warning None) demo_process = Some p' ∧
        warning_listeners p' = [Other_listener 7; Other_listener 8] ∧
        length (warnings_seen p') = 6%nat.
Proof.
  destruct (first_warning_reemitted (demo_warning None) demo_process)
    as (seen & Hrun & Hseen);
    [exact handlers_distinct_demo|discriminate|].
  eexists. split; [exact Hrun|]. split; [reflexivity|].
  cbn [warnings_seen]. rewrite length_app, Hseen. reflexivity.
Defined.

Lemma later_warnings_untouched_witness :
  ∃ p1, process_emit_warning (demo_warning None) demo_process = Some p1 ∧
        process_emit_warning (demo_warning (Some "UNDICI-H2")) p1
        = Some (seen_more p1 [(7%nat, demo_warning (Some "UNDICI-H2"));
                              (8%nat, demo_warning (Some "UNDICI-H2"))]).
Proof.
  destruct (process_emit_warning (demo_warning None) demo_process)
    as [p1|] eqn:Hfirst; [|vm_compute in Hfirst; discriminate].
  exists p1. split; [reflexivity|].
  destruct (later_warnings_untouched demo_process p1 (demo_warning None)
              (demo_warning (Some "UNDICI-H2")) handlers_distinct_demo Hfirst)
    as (_ & _ & ->).
  reflexivity.
Defined.

(** ** The headers as [Headers.set] stores them *)

Section Strict_headers.
Context `{Platform}.

Lemma set_all_spec (es : list (string * string)) :
  ∀ h, Strict.set_all es h
       = if forallb (λ kv, storable kv.2) es then Normal (Strict.stored es h)
         else Throw TypeError.
Proof.
  induction es as [|[name value] es IH]; intros h; [done|].
  cbn [Strict.set_all forallb Strict.stored foldl fst snd].
  unfold Headers_set, storable.
  destruct (ByteString_ok value); [|done].
  destruct (isValidHeaderValue (headerValueNormalize value)); [|done].
  cbn. by rewrite IH.
Qed.

Ltac step_headers :=
  repeat match goal with
         | |- context [and_then (Headers_set ?k ?v ?h) _] =>
             destruct (Headers_set k v h); cbn [and_then]; [|done]
         end.

(** [send] stores the entries one after the other. *)
Lemma send_headers_entries (me : ApnsClient) (token : string) (n : Notification) :
  Strict.send_headers me token n
  = Strict.set_all (Strict.header_entries me token n) ∅.
Proof.
  unfold Strict.send_headers, Strict.header_entries.
  destruct (match topic (options n) with
            | Some t => Some t
            | None => defaultTopic me
            end) as [t|]; [destruct (truthy t)|];
    destruct (bool_decide (priority n ≠ Priority_immediate));
    destruct (expiration (options n)) as [e|];
    (destruct (collapseId (options n)) as [c|]; [destruct (truthy c)|]);
    cbn [app Strict.set_all]; step_headers;
    try done; by destruct (Headers_set _ _ _).
Qed.

(** The headers are stored when every value can be, and then every one
    normalised; otherwise [send] throws a [TypeError]. *)
Lemma send_headers_spec (me : ApnsClient) (token : string) (n : Notification) :
  Strict.send_headers me token n
  = if Strict.headers_storable me token n
    then Normal (Strict.stored (Strict.header_entries me token n) ∅)
    else Throw TypeError.
Proof. rewrite send_headers_entries. apply set_all_spec. Qed.

Ltac stored_cases :=
  unfold Strict.stored, Strict.header_entries;
  repeat (case_match; simplify_eq/=);
  repeat case_bool_decide;
  by simplify_map_eq.



Lemma stored_fixed (me : ApnsClient) (token : string) (n : Notification) :
  Strict.stored (Strict.header_entries me token n) ∅ !! "authorization"
  = Some (headerValueNormalize ("bearer " +:+ token)) ∧
  Strict.stored (Strict.header_entries me token n) ∅ !! "apns-push-type"
  = Some (headerValueNormalize (pushType n)) ∧
  Strict.stored (Strict.header_entries me token n) ∅ !! "apns-collapse-id"
  = match collapseId (options n) with
    | Some c => if truthy c then Some (headerValueNormalize c) else None
    | None => None
    end.
Proof. split; [|split]; stored_cases. Qed.




(** Values that are valid and have no whitespace around them are stored
    as they are: the headers are those of [buildHeaders]. *)
Lemma send_headers_plain (me : ApnsClient) (token : string) (n : Notification) :
  Forall (λ kv, storable kv.2 = true ∧ headerValueNormalize kv.2 = kv.2)
         (Strict.header_entries me token n) →
  Strict.send_headers me token n = Normal (buildHeaders me token n).
Proof.
  intros Hplain. rewrite send_headers_spec.
  assert (Strict.headers_storable me token n = true) as ->.
  { unfold Strict.headers_storable. apply forallb_forall. intros kv Hkv.
    rewrite Forall_forall in Hplain. apply Hplain. by apply list_elem_of_In. }
  f_equal. revert Hplain.
  unfold Strict.stored, Strict.header_entries, buildHeaders.
  repeat case_match; rewrite ?Forall_app, ?Forall_cons, ?Forall_nil; cbn;
    intros; destruct_and?; by repeat (f_equal; try done).
Qed.

End Strict_headers.

(** ** A rejection whose reason is "error" *)

Section Reason_error.
Context `{Platform}.

(** Where neither the reason nor the generic channel is the channel
    "error" of Node, a failed send emits on both channels and throws, and
    an emission without listener does not throw. *)
Lemma error_events_elsewhere (res : Response) (n : Notification) (w : World) :
  status res ≠ 200 →
  ApnsError_reason (classified_error res n (reads w)) ≠ "error" →
  Errors_error ≠ "error" →
  error_events_as_specified res n w.
Proof.
  intros Hst Hreason Hgeneric. unfold error_events_as_specified.
  rewrite handleServerResponse_rejected by done. cbn [fst snd this trace].
  set (e := classified_error res n (reads w)) in *.
  set (me' := if bool_decide _ then _ else _).
  assert (emit_throws me' (ApnsError_reason e) = false) as ->.
  { unfold emit_throws. by rewrite bool_decide_eq_false_2. }
  split; [done|]. split.
  - by rewrite !emissions_app, !emissions_emit_trace.
  - intros name w1 Hname _ _. rewrite emit_spec. cbn [fst].
    assert (emit_throws (this w1) name = false) as ->; [|by eexists].
    unfold emit_throws. rewrite bool_decide_eq_false_2; [done|].
    by destruct Hname as [->| ->].
Qed.

(** C9: a rejection whose reason is the string "error", on a client
    without listener on the channel "error".  The emission on the channel
    of the reason throws the error, so that the emission on the generic
    channel is never made: the error is emitted once in all, and the caller
    gets it from [emit]. *)
Theorem C9_reason_error_skips_generic (res : Response) (n : Notification)
    (w : World) (b : ApnsResponseError) :
  status res ≠ 200 → json res = Some b → reason b = "error" →
  listeners (this w) "error" = [] →
  let e := {| statusCode := status res; notification := n; response := b |} in
  let out := _handleServerResponse res n w in
  out.1 = Throw (Thrown_ApnsError e) ∧
  emissions (trace out.2) = emissions (trace w) ++ [("error", e)] ∧
  (∀ w1, _events (this w1) = _events (this w) →
         (emit (ApnsError_reason e) e w1).1 = Throw (Thrown_ApnsError e)) ∧
  ¬ error_events_as_specified res n w.
Proof.
  intros Hst Hb Hreason Hnone e out.
  assert (classified_error res n (reads w) = e) as He.
  { unfold classified_error, classified_body. by rewrite Hb. }
  assert (ApnsError_reason e = "error") as Hr by done.
  assert (∀ c, _events c = _events (this w) → emit_throws c "error" = true)
    as Hthrows.
  { intros c Hc. unfold emit_throws, listeners in *. rewrite Hc, Hnone.
    by rewrite !bool_decide_eq_true_2. }
  assert (out.1 = Throw (Thrown_ApnsError e) ∧
          emissions (trace out.2) = emissions (trace w) ++ [("error", e)])
    as [Hout Hem].
  { subst out. rewrite handleServerResponse_rejected by done.
    cbn [fst snd this trace]. rewrite He, Hr.
    rewrite Hthrows by (by case_bool_decide).
    rewrite app_nil_r, emissions_app, emissions_emit_trace. done. }
  split; [done|]. split; [done|]. split.
  - intros w1 Hw1. rewrite emit_spec, Hr. cbn [fst]. by rewrite Hthrows.
  - intros (_ & Hboth & _). fold out in Hboth. rewrite Hem, He in Hboth.
    apply app_inv_head in Hboth. discriminate.
Qed.

End Reason_error.

Lemma C9_reason_error_skips_generic_witness :
  let P := demo_platform_capital in
  let n := demo_notification None None in
  let w := fresh_world demo_client 0 [] in
  let res := demo_response 410 (Some (demo_body "error")) in
  let e := {| statusCode := 410; notification := n; response := demo_body "error" |} in
  (_handleServerResponse res n w).1 = Throw (Thrown_ApnsError e) ∧
  emissions (trace (_handleServerResponse res n w).2) = [("error", e)] ∧
  (emit "error" e w).1 = Throw (Thrown_ApnsError e) ∧
  ¬ error_events_as_specified res n w.
Proof.
  intros P n w res e.
  destruct (C9_reason_error_skips_generic res n w (demo_body "error"))
    as (Hout & Hem & Hemit & Hnot);
    [vm_compute; discriminate|reflexivity|reflexivity|vm_compute; reflexivity|].
  split; [exact Hout|]. split; [exact Hem|]. split; [|exact Hnot].
  apply (Hemit w). reflexivity.
Defined.



(** ** [send] and [sendMany] over [Headers.set] *)

Section Strict_send.
Context `{Platform}.

Lemma strict_send_request_unfold (n : Notification) (w : World) :
  Strict.send_request n w
  = match _getSigningToken w with
    | (Normal token, w1) =>
        match Strict.checked_request (this w1) token n with
        | Normal req =>
            (Normal req,
             {| this := this w1; reads := reads w1;
                trace := trace w1 ++ [Ev_fetch req] |})
        | Throw t => (Throw t, w1)
        end
    | (Throw t, w1) => (Throw t, w1)
    end.
Proof.
  unfold Strict.send_request, bind.
  destruct (_getSigningToken w) as [[token|t] w1]; [|done].
  unfold get_this. by destruct (Strict.checked_request (this w1) token n).
Qed.

Lemma checked_request_spec (me : ApnsClient) (token : string) (n : Notification) :
  Strict.checked_request me token n
  = if Strict.headers_storable me token n
    then Normal {| url := "https://" +:+ host me +:+ ":443/3/device/"
                          +:+ encodeURIComponent (deviceToken n);
                   init := {| method := "POST";
                              headers := Strict.stored
                                           (Strict.header_entries me token n) ∅;
                              body := apnsOptionsJson n;
                              keepalive := keepAlive me |} |}
    else Throw TypeError.
Proof.
  unfold Strict.checked_request. rewrite send_headers_spec.
  by destruct (Strict.headers_storable me token n).
Qed.

Lemma fetch_events (reqs : list Request) :
  sign_calls (map Ev_fetch reqs) = [] ∧ fetches (map Ev_fetch reqs) = reqs.
Proof.
  unfold sign_calls, fetches.
  induction reqs as [|r reqs [IH1 IH2]]; [done|]. cbn. by rewrite IH2.
Qed.

(** With values that are valid and have no whitespace around them, the
    request is the one of [buildRequest]. *)
Lemma checked_request_plain (me : ApnsClient) (token : string) (n : Notification) :
  Forall (λ kv, storable kv.2 = true ∧ headerValueNormalize kv.2 = kv.2)
         (Strict.header_entries me token n) →
  Strict.checked_request me token n = Normal (buildRequest me token n).
Proof.
  intros Hplain. unfold Strict.checked_request.
  by rewrite send_headers_plain.
Qed.

(** X4: the first send of a client just constructed signs one token, with
    the team as issuer and the clock reading in seconds as issue time, and
    stores it.  When every header value can be stored it posts the
    payload, authorised by that token, to
    [https://<host>:443/3/device/<encoded device token>], where the host is
    the production host and keep-alive is on unless the options say
    otherwise; when one cannot, it throws a [TypeError] without calling
    [fetch], and the token stays cached. *)
Theorem first_send_of_new_client (o : ApnsOptions) (n : Notification)
    (k : nat) (tr : list Event) (token : string) :
  let so := {| key := opt_signingKey o; algorithm := "ES256"; kid := opt_keyId o |} in
  let claims := {| iss := opt_team o; iat := clock k `div` 1000 |} in
  let out := Strict.send_request n (fresh_world (constructor o) k tr) in
  createSigner so claims = Normal token →
  sign_calls (trace out.2) = sign_calls tr ++ [(so, claims)] ∧
  _token (this out.2) = Some {| value := token; timestamp := clock (S k) |} ∧
  (Strict.headers_storable (constructor o) token n = true →
   ∃ req,
     out.1 = Normal req ∧
     url req = "https://" +:+ default "api.push.apple.com" (opt_host o)
               +:+ ":443/3/device/" +:+ encodeURIComponent (deviceToken n) ∧
     method (init req) = "POST" ∧
     body (init req) = apnsOptionsJson n ∧
     keepalive (init req) = default true (opt_keepAlive o) ∧
     headers (init req) !! "authorization"
     = Some (headerValueNormalize ("bearer " +:+ token)) ∧
     fetches (trace out.2) = fetches tr ++ [req]) ∧
  (Strict.headers_storable (constructor o) token n = false →
   out.1 = Throw TypeError ∧ fetches (trace out.2) = fetches tr).
Proof.
  intros so claims out Hsign. subst out. rewrite strict_send_request_unfold.
  destruct (getSigningToken_cases (fresh_world (constructor o) k tr))
    as [(t & Ht & _)|(k' & [[_ ->]|(t & Ht & _)] & Hrun)]; [done| |done].
  cbv zeta in Hrun. cbn [fresh_world this reads trace constructor
    signingKey keyId team] in Hrun.
  fold so claims in Hrun. rewrite Hsign in Hrun. rewrite Hrun.
  cbn [this reads trace]. rewrite checked_request_spec.
  change (Strict.headers_storable (with_token (constructor o) _) token n)
    with (Strict.headers_storable (constructor o) token n).
  destruct (Strict.headers_storable (constructor o) token n);
    cbn [fst snd this trace with_token _token].
  - rewrite !sign_calls_app, !fetches_app, !app_nil_r.
    split; [done|]. split; [done|]. split; [|done].
    intros _. eexists. split; [reflexivity|].
    cbn [url init method body keepalive headers with_token host keepAlive
         constructor].
    repeat split; try done. apply stored_fixed.
  - rewrite !sign_calls_app, !fetches_app, !app_nil_r.
    split; [done|]. split; [done|]. split; [done|]. by intros _.
Qed.

(** While the cached token is fresh at every reading of the clock, the
    synchronous parts of a batch reuse it: every notification whose headers
    can be stored gets its request, in the order of the array; the others
    throw before [fetch]. *)
Lemma strict_start_all_fresh (ns : list Notification) :
  ∀ (w : World) (t : SigningToken),
    _token (this w) = Some t →
    (∀ j, (reads w ≤ j < reads w + length ns)%nat →
          clock j - timestamp t < RESET_TOKEN_INTERVAL_MS) →
    Strict.start_all ns w
    = (Normal (map (λ n, match Strict.checked_request (this w) (value t) n with
                         | Normal req => Awaiting n req
                         | Throw e => Rejected_at_start e
                         end) ns),
       {| this := this w; reads := (reads w + length ns)%nat;
          trace := trace w
                   ++ map Ev_fetch (omap (Strict.issued (this w) (value t)) ns) |}).
Proof.
  induction ns as [|n ns IH]; intros [me k tr] t Ht Hwin;
    cbn [this reads trace] in *.
  - cbn. unfold ret. by rewrite Nat.add_0_r, app_nil_r.
  - cbn [Strict.start_all]. unfold bind at 1. unfold Strict.start_send.
    rewrite strict_send_request_unfold.
    destruct (getSigningToken_cases {| this := me; reads := k; trace := tr |})
      as [(t' & Ht' & _ & Hrun)|(k' & [[Hnone _]|(t' & Ht' & Hstale & _)] & _)];
      cbn [this reads trace] in *.
    + rewrite Hrun. simplify_eq. cbn [this reads trace].
      cbn [omap list_omap map]. unfold Strict.issued at 1.
      destruct (Strict.checked_request me (value t) n) as [req|e];
        unfold bind.
      * rewrite (IH {| this := me; reads := S k;
                       trace := tr ++ [Ev_fetch req] |} t Ht);
          cbn [this reads trace].
        -- unfold ret. cbn [length map]. f_equal. f_equal; [lia|].
           by rewrite <- app_assoc.
        -- intros j Hj. apply Hwin. cbn [length]. lia.
      * rewrite (IH {| this := me; reads := S k; trace := tr |} t Ht);
          cbn [this reads trace].
        -- unfold ret. cbn [length map]. f_equal. f_equal. lia.
        -- intros j Hj. apply Hwin. cbn [length]. lia.
    + congruence.
    + simplify_eq. specialize (Hwin k). cbn [length] in Hwin. lia.
Qed.

End Strict_send.

Section Strict_batch.
Context `{Platform}.
Variable net : nat -> Request -> FetchOutcome.

(** Once the synchronous parts have run, the rest of [sendMany] signs
    nothing and fetches nothing. *)
Lemma strict_sendMany_after_start (order : list nat) (ns : list Notification)
    (w w1 : World) (flights : list InFlight) :
  Strict.start_all ns w = (Normal flights, w1) →
  sign_calls (trace (Strict.sendMany net order ns w).2) = sign_calls (trace w1) ∧
  fetches (trace (Strict.sendMany net order ns w).2) = fetches (trace w1).
Proof.
  intros Hstart. unfold Strict.sendMany, bind. rewrite Hstart.
  pose proof (settle_in_order_effects net flights order
                (replicate (length ns) None) w1) as Heff.
  cbv zeta in Heff.
  destruct (settle_in_order net flights order _ w1) as [[promises|t'] w2];
    by destruct Heff as (? & ? & _).
Qed.

(** With an empty cache and a signer that returns [token], the first
    notification of a batch is signed for and the others reuse the token
    while it is fresh. *)
Lemma strict_start_all_from_empty (n : Notification) (ns : list Notification)
    (w : World) (token : string) :
  let me := this w in
  let k := reads w in
  let o := {| key := signingKey me; algorithm := "ES256"; kid := keyId me |} in
  let claims := {| iss := team me; iat := clock k `div` 1000 |} in
  let me' := with_token me (Some {| value := token; timestamp := clock (S k) |}) in
  _token me = None →
  createSigner o claims = Normal token →
  (∀ j, (S (S k) ≤ j < S (S k) + length ns)%nat →
        clock j - clock (S k) < RESET_TOKEN_INTERVAL_MS) →
  ∃ flights,
    Strict.start_all (n :: ns) w
    = (Normal flights,
       {| this := me'; reads := (S (S k) + length ns)%nat;
          trace := (trace w ++ [Ev_sign o claims])
                   ++ map Ev_fetch (omap (Strict.issued me' token) (n :: ns)) |}).
Proof.
  intros me k o claims me' Hnone Hsign Hwin.
  cbn [Strict.start_all]. unfold bind at 1. unfold Strict.start_send.
  rewrite strict_send_request_unfold.
  destruct (getSigningToken_cases w)
    as [(t' & Ht' & _)|(k' & [[_ ->]|(t' & Ht' & _)] & Hrun)];
    [subst me; congruence| |subst me; congruence].
  cbv zeta in Hrun. fold me k o claims in Hrun. rewrite Hsign in Hrun.
  rewrite Hrun. cbn [this reads trace]. fold me'.
  cbn [omap list_omap]. unfold Strict.issued at 1.
  destruct (Strict.checked_request me' token n) as [req|e]; unfold bind.
  - rewrite (strict_start_all_fresh ns
               {| this := me'; reads := S (S k);
                  trace := (trace w ++ [Ev_sign o claims]) ++ [Ev_fetch req] |}
               {| value := token; timestamp := clock (S k) |});
      cbn [this reads trace timestamp value]; [|done|done].
    unfold ret. eexists. f_equal. f_equal. cbn [map]. by rewrite <- app_assoc.
  - rewrite (strict_start_all_fresh ns
               {| this := me'; reads := S (S k);
                  trace := trace w ++ [Ev_sign o claims] |}
               {| value := token; timestamp := clock (S k) |});
      cbn [this reads trace timestamp value]; [|done|done].
    unfold ret. by eexists.
Qed.

(** X11: a batch sent while the cached token is fresh calls the signer not
    once.  It hands [fetch] one request for every notification whose
    headers can be stored, in the order of the array whatever the order of
    completion, each built with the cached token; the other notifications
    are rejected before [fetch]. *)
Theorem sendMany_reuses_fresh_token (order : list nat) (ns : list Notification)
    (w : World) (t : SigningToken) :
  _token (this w) = Some t →
  (∀ j, (reads w ≤ j < reads w + length ns)%nat →
        clock j - timestamp t < RESET_TOKEN_INTERVAL_MS) →
  sign_calls (trace (Strict.sendMany net order ns w).2) = sign_calls (trace w) ∧
  fetches (trace (Strict.sendMany net order ns w).2)
  = fetches (trace w) ++ omap (Strict.issued (this w) (value t)) ns.
Proof.
  intros Ht Hwin.
  destruct (strict_sendMany_after_start order ns w _ _
              (strict_start_all_fresh ns w t Ht Hwin)) as [-> ->].
  cbn [trace]. rewrite sign_calls_app, fetches_app.
  destruct (fetch_events (omap (Strict.issued (this w) (value t)) ns)) as [-> ->].
  by rewrite app_nil_r.
Qed.

(** X12: when a batch is sent with an empty cache, the signer returns a
    token for its first notification, and the clock stays within 55
    minutes of the time of storing, the signer is called exactly once; every
    notification whose headers can be stored gets one request, built with
    that token, in the order of the array. *)
Theorem sendMany_signs_once (order : list nat) (n : Notification)
    (ns : list Notification) (w : World) (token : string) :
  let me := this w in
  let k := reads w in
  let o := {| key := signingKey me; algorithm := "ES256"; kid := keyId me |} in
  let claims := {| iss := team me; iat := clock k `div` 1000 |} in
  let me' := with_token me (Some {| value := token; timestamp := clock (S k) |}) in
  _token me = None →
  createSigner o claims = Normal token →
  (∀ j, (S (S k) ≤ j < S (S k) + length ns)%nat →
        clock j - clock (S k) < RESET_TOKEN_INTERVAL_MS) →
  sign_calls (trace (Strict.sendMany net order (n :: ns) w).2)
  = sign_calls (trace w) ++ [(o, claims)] ∧
  fetches (trace (Strict.sendMany net order (n :: ns) w).2)
  = fetches (trace w) ++ omap (Strict.issued me' token) (n :: ns).
Proof.
  intros me k o claims me' Hnone Hsign Hwin.
  destruct (strict_start_all_from_empty n ns w token Hnone Hsign Hwin)
    as [flights Hstart].
  destruct (strict_sendMany_after_start order (n :: ns) w _ _ Hstart) as [-> ->].
  cbn [trace]. rewrite !sign_calls_app, !fetches_app.
  match goal with |- context [map Ev_fetch ?l] =>
    destruct (fetch_events l) as [-> ->]
  end.
  cbn. by rewrite !app_nil_r.
Qed.

End Strict_batch.

Lemma first_send_of_new_client_witness :
  let P := demo_platform in
  let w := fresh_world (constructor demo_options) 0 [] in
  let good := demo_notification None None in
  let bad := demo_notification (Some ("com" +:+ LF +:+ "a")) None in
  (∃ req, (Strict.send_request good w).1 = Normal req ∧
          url req = "https://api.push.apple.com:443/3/device/00ff" ∧
          keepalive (init req) = true ∧
          headers (init req) !! "authorization"
          = Some "bearer jwt:TEAM:1700000000:KID") ∧
  (Strict.send_request bad w).1 = Throw TypeError ∧
  fetches (trace (Strict.send_request bad w).2) = [] ∧
  _token (this (Strict.send_request bad w).2)
  = Some {| value := "jwt:TEAM:1700000000:KID"; timestamp := 1700000001000 |}.
Proof.
  intros P w good bad.
  destruct (first_send_of_new_client demo_options good 0 []
              "jwt:TEAM:1700000000:KID") as (_ & _ & Hsent & _);
    [vm_compute; reflexivity|].
  destruct (first_send_of_new_client demo_options bad 0 []
              "jwt:TEAM:1700000000:KID") as (_ & Htoken & _ & Hrefused);
    [vm_compute; reflexivity|].
  split.
  - destruct Hsent as (req & Hreq & Hurl & _ & _ & Hka & Hauth & _);
      [vm_compute; reflexivity|].
    exists req. split; [exact Hreq|]. split; [exact Hurl|].
    split; [exact Hka|]. rewrite Hauth. vm_compute. reflexivity.
  - destruct Hrefused as [Hthrow Hfetch]; [vm_compute; reflexivity|].
    split; [exact Hthrow|]. split; [exact Hfetch|exact Htoken].
Defined.

Lemma sendMany_reuses_fresh_token_witness :
  let P := demo_platform in
  let a := demo_notification (Some "com.a") None in
  let bad := demo_notification (Some ("com" +:+ LF +:+ "a")) None in
  let b := demo_notification (Some "com.b") None in
  let w := demo_world_with_token 1000 in
  sign_calls (trace (Strict.sendMany demo_net [2; 0; 1]%nat [a; bad; b] w).2) = [] ∧
  fetches (trace (Strict.sendMany demo_net [2; 0; 1]%nat [a; bad; b] w).2)
  = [buildRequest (this w) "cached" a; buildRequest (this w) "cached" b].
Proof.
  intros P a bad b w.
  destruct (sendMany_reuses_fresh_token demo_net [2; 0; 1]%nat [a; bad; b] w
              {| value := "cached"; timestamp := 1700000000000 - 1000 |})
    as [Hs Hf]; [reflexivity| |].
  - intros j Hj. change (clock j) with (1700000000000 + 1000 * Z.of_nat j).
    cbn in Hj. cbn [timestamp]. unfold RESET_TOKEN_INTERVAL_MS. lia.
  - rewrite Hs, Hf. split; [reflexivity|]. vm_compute. reflexivity.
Defined.

Lemma sendMany_signs_once_witness :
  let P := demo_platform in
  let a := demo_notification (Some "com.a") None in
  let bad := demo_notification (Some ("com" +:+ LF +:+ "a")) None in
  let w := fresh_world demo_client 0 [] in
  sign_calls (trace (Strict.sendMany demo_net [1; 0]%nat [a; bad] w).2)
  = [({| key := "KEY"; algorithm := "ES256"; kid := "KID" |},
      {| iss := "TEAM"; iat := 1700000000 |})] ∧
  length (fetches (trace (Strict.sendMany demo_net [1; 0]%nat [a; bad] w).2))
  = 1%nat.
Proof.
  intros P a bad w.
  destruct (sendMany_signs_once demo_net [1; 0]%nat a [bad] w
              "jwt:TEAM:1700000000:KID") as [Hs Hf].
  - reflexivity.
  - vm_compute. reflexivity.
  - intros j Hj. change (clock j) with (1700000000000 + 1000 * Z.of_nat j).
    change (clock (S (reads w))) with (1700000000000 + 1000 * Z.of_nat 1).
    cbn in Hj. unfold RESET_TOKEN_INTERVAL_MS. lia.
  - rewrite Hs, Hf. split; [reflexivity|]. vm_compute. reflexivity.
Defined.
